(** * testcontainer-go: containers for tests, labelled per session and
      guarded by a reaper sidecar

    A shallow embedding of [container.go], [reaper.go] and [docker.go].

    - Go strings are byte strings: [string].
    - Go maps are [gmap]s.  A [range] loop over a map visits the entries in
      an order the Go runtime picks anew for every loop; each loop over a
      map therefore takes the order of the visit as an argument, and
      [RangeOf m order] says that [order] is one of the possible visits.
    - A Go result pair [(v, err)] is kept as a pair where the code can
      return both halves non-nil, and as a [result] otherwise.
    - The Docker daemon and the UUID generator are the environment: their
      state is threaded through the monad [M].  The connection to the
      sidecar is a value of its own, [bufio.Conn]. *)

From Stdlib Require Import Ascii String DecimalString DecimalZ ZArith.
From stdpp Require Import gmap strings list fin_maps sorting.

Open Scope string_scope.

(** ** Errors *)

(** [error] values: [fmt.Errorf]/[errors.New] strings, [errors.Wrap]
    around a cause, the errors of the Docker client (with the bit
    [client.IsErrNotFound] tests), and I/O errors of a connection. *)
Inductive Error : Type :=
| Errorf (msg : string)
| Wrap (cause : Error) (msg : string)
| ClientError (notFound : bool) (msg : string)
| IOError (msg : string).

Definition IsErrNotFound (e : Error) : bool :=
  match e with
  | ClientError nf _ => nf
  | _ => false
  end.

Inductive result (A : Type) : Type :=
| Ok (v : A)
| Err (e : Error).
Arguments Ok {A} v.
Arguments Err {A} e.

(** ** The pieces of Go's standard library the code calls *)

Module strings.

(** [strings.Join(elems, sep)]. *)
Fixpoint Join (elems : list string) (sep : string) : string :=
  match elems with
  | [] => ""
  | [e] => e
  | e :: rest => e ++ sep ++ Join rest sep
  end.

(** [strings.Split(s, sep)] for a separator of one byte, the only way
    the source calls it ([strings.Split(req.Cmd, " ")]): the pieces
    between the separators, empty pieces included, never an empty
    slice. *)
Fixpoint Split (s : string) (sep : ascii) : list string :=
  match s with
  | EmptyString => [""]
  | String c rest =>
      if Ascii.eqb c sep then "" :: Split rest sep
      else match Split rest sep with
           | [] => [String c ""]
           | piece :: pieces => String c piece :: pieces
           end
  end.

(** Does byte [c] occur in [s]? *)
Fixpoint ContainsByte (s : string) (c : ascii) : bool :=
  match s with
  | EmptyString => false
  | String d rest => Ascii.eqb d c || ContainsByte rest c
  end.

(** The bytes of [s] before the first [c] (all of [s] if there is none). *)
Fixpoint Before (s : string) (c : ascii) : string :=
  match s with
  | EmptyString => ""
  | String d rest => if Ascii.eqb d c then "" else String d (Before rest c)
  end.

End strings.

Module strconv.
(** [strconv.Itoa]: the decimal digits of an [int]. *)
Definition Itoa (i : Z) : string := NilZero.string_of_int (Z.to_int i).
End strconv.

Definition space : ascii := " "%char.
Definition newline : ascii := Ascii.ascii_of_nat 10.
Definition slash : ascii := "/"%char.

(** ** Docker's types, as far as the code reads or writes them *)

Module nat_.
(** [nat.Port] is a string such as ["8080/tcp"]. *)
Definition Port := string.

(** [Port.Port()]: the port number part, the text before the [/]. *)
Definition Port_Port (p : Port) : string := strings.Before p slash.

Record PortBinding : Type := { HostIP : string; HostPort : string }.
End nat_.

Abbreviation PortSet := (gset string).
Abbreviation PortMap := (gmap string (list nat_.PortBinding)).

Module mount.
Inductive Type_ : Type := TypeBind | TypeVolume | TypeTmpfs.
Record Mount : Type :=
  { Type' : Type_; Source : string; Target : string; ReadOnly : bool }.
End mount.

Module container.
(** [container.Config]; a nil [Cmd] slice is [[]]. *)
Record Config : Type :=
  { Image : string;
    Env : list string;
    ExposedPorts : PortSet;
    Labels : gmap string string;
    Cmd : list string }.

Record HostConfig : Type :=
  { PortBindings : PortMap;
    Mounts : list mount.Mount }.
End container.

Module types.
Record NetworkSettings : Type :=
  { Ports : PortMap; IPAddress : string }.

(** [types.ContainerJSON], the answer to an inspect. *)
Record ContainerJSON : Type :=
  { Config : container.Config;
    NetworkSettings' : NetworkSettings }.

Record ImagePullOptions : Type := { RegistryAuth : string }.
End types.

Module uuid.
(** [uuid.UUID], known by its canonical text. *)
Record UUID : Type := { String' : string }.
End uuid.

(** [RangeOf m order]: [order] is a visit of the entries of [m], each
    exactly once. *)
Definition RangeOf {V : Type} (m : gmap string V) (order : list (string * V)) : Prop :=
  order ≡ₚ map_to_list m.

(** ** The environment: Docker daemon and UUID generator *)

(** What the process asks of the Docker client, with the arguments.
    [CallExternal] stands for whatever else happens to the daemon. *)
Inductive ClientCall : Type :=
| CallImageInspectWithRaw (image : string)
| CallImagePull (image : string) (opts : types.ImagePullOptions)
| CallReadAll
| CallPullClose
| CallContainerCreate (config : container.Config) (hostConfig : container.HostConfig)
| CallContainerStart (id : string)
| CallContainerInspect (id : string)
| CallContainerRemove (id : string) (force : bool)
| CallProbe (what : string)
| CallExternal (what : string).

(** The daemon behind a [client.Client]: each answer is a function of
    everything that happened before (newest first). *)
Record Client : Type :=
  { ImageInspectWithRaw : list ClientCall -> string -> option Error;
    ImagePull : list ClientCall -> string -> types.ImagePullOptions -> option Error;
    ReadAll : list ClientCall -> option Error;
    ContainerCreate :
      list ClientCall -> container.Config -> container.HostConfig -> result string;
    ContainerStart : list ClientCall -> string -> option Error;
    ContainerInspect : list ClientCall -> string -> result types.ContainerJSON;
    ContainerRemove : list ClientCall -> string -> bool -> option Error;
    Probe : list ClientCall -> string -> bool }.

(** [rand_pos]: how many UUIDs have been drawn; [calls]: the history of
    the daemon, newest first. *)
Record World : Type := { rand_pos : nat; calls : list ClientCall }.

(** How a call ends: it returns, it panics, or it is still running, in
    world [w], when the fuel of the model is spent. *)
Inductive Exec (A : Type) : Type :=
| Returns (a : A)
| Panics (msg : string)
| OutOfFuel (w : World).
Arguments Returns {A} a.
Arguments Panics {A} msg.
Arguments OutOfFuel {A} w.

Definition M (A : Type) : Type := World -> Exec (A * World).

Definition ret {A} (a : A) : M A := fun w => Returns (a, w).

Definition bind {A B} (m : M A) (k : A -> M B) : M B :=
  fun w =>
    match m w with
    | Returns (a, w') => k a w'
    | Panics msg => Panics msg
    | OutOfFuel w' => OutOfFuel w'
    end.

Definition panic {A} (msg : string) : M A := fun _ => Panics msg.

#[global] Instance M_ret : MRet M := @ret.
#[global] Instance M_bind : MBind M := fun A B k m => bind m k.

(** One call of the Docker client: the answer comes from the history,
    and the call joins the history. *)
Definition call {A} (what : ClientCall) (answer : list ClientCall -> A) : M A :=
  fun w => Returns (answer (calls w),
                    {| rand_pos := rand_pos w; calls := what :: calls w |}).

(** ** container.go *)

(** Modelled from the spec: the readiness strategy of package [wait], a
    "capability waitUntilReady(handle) -> Error|nil, pluggable per
    request".  It sees its target through the two methods of the target
    interface ([GetIPAddress], [LivenessCheckPorts]) and probes the
    outside world; a strategy is the tree of what it does with each
    answer. *)
Inductive WaitStrategy : Type :=
| WaitReturn (err : option Error)
| WaitGetIPAddress (k : string -> option Error -> WaitStrategy)
| WaitLivenessCheckPorts (k : result PortSet -> WaitStrategy)
| WaitProbe (what : string) (k : bool -> WaitStrategy).

Module req.
(** [ContainerRequest]; a nil map is [∅], a nil slice [[]], a nil
    strategy [None]. *)
Record ContainerRequest : Type :=
  { Image : string;
    Env : gmap string string;
    ExportedPort : list string;
    Cmd : string;
    Labels : gmap string string;
    RegistryCred : string;
    WaitingFor : option WaitStrategy;
    Mounts : list mount.Mount }.
End req.
Abbreviation ContainerRequest := req.ContainerRequest.

(** ** docker.go: the handle *)

Record DockerProvider : Type := { client : Client }.

Record DockerContainer : Type :=
  { ID : string;
    WaitingFor : option WaitStrategy;
    sessionID : uuid.UUID;
    raw : option types.ContainerJSON;
    provider : DockerProvider }.

(** [c.raw = &inspect]. *)
Definition set_raw (c : DockerContainer) (inspect : types.ContainerJSON) : DockerContainer :=
  {| ID := ID c; WaitingFor := WaitingFor c; sessionID := sessionID c;
     raw := Some inspect; provider := provider c |}.

Definition inspectContainer (c : DockerContainer)
  : M (result types.ContainerJSON * DockerContainer) :=
  match raw c with
  | Some inspect => ret (Ok inspect, c)
  | None =>
      r ← call (CallContainerInspect (ID c))
                (fun h => ContainerInspect (client (provider c)) h (ID c));
      match r with
      | Err err => ret (Err err, c)
      | Ok inspect => ret (Ok inspect, set_raw c inspect)
      end
  end.

Definition GetPorts (c : DockerContainer) : M (result PortSet * DockerContainer) :=
  '(r, c) ← inspectContainer c;
  match r with
  | Err err => ret (Err err, c)
  | Ok inspect => ret (Ok (container.ExposedPorts (types.Config inspect)), c)
  end.

Definition LivenessCheckPorts (c : DockerContainer) : M (result PortSet * DockerContainer) :=
  GetPorts c.

Definition GetIPAddress (c : DockerContainer) : M (string * option Error * DockerContainer) :=
  '(r, c) ← inspectContainer c;
  match r with
  | Err err => ret ("", Some err, c)
  | Ok inspect => ret (types.IPAddress (types.NetworkSettings' inspect), None, c)
  end.

(** The loop of [GetMappedPort] over the visit [order] of
    [inspect.NetworkSettings.Ports]: the bindings [p] of the first entry
    whose port number is [port], if there is one. *)
Fixpoint scanMappedPort (order : list (string * list nat_.PortBinding)) (port : Z)
  : option (list nat_.PortBinding) :=
  match order with
  | [] => None
  | (k, p) :: rest =>
      if String.eqb (nat_.Port_Port k) (strconv.Itoa port) then Some p
      else scanMappedPort rest port
  end.

(** [port] is a [uint16]: [0 <= port < 65536].  [p[0]] on an empty
    slice panics. *)
Definition GetMappedPort (c : DockerContainer) (port : Z)
    (order : list (string * list nat_.PortBinding))
  : M (string * option Error * DockerContainer) :=
  '(r, c) ← inspectContainer c;
  match r with
  | Err err => ret ("", Some err, c)
  | Ok inspect =>
      match scanMappedPort order port with
      | Some (b :: _) => ret (nat_.HostPort b, None, c)
      | Some [] => panic "runtime error: index out of range"
      | None => ret ("0", None, c)
      end
  end.

(** [c.WaitingFor.WaitUntilReady(ctx, c)]: the strategy runs against the
    handle, whose cache its calls may fill. *)
Fixpoint WaitUntilReady (ws : WaitStrategy) (c : DockerContainer)
  : M (option Error * DockerContainer) :=
  match ws with
  | WaitReturn err => ret (err, c)
  | WaitGetIPAddress k =>
      '(ip, err, c) ← GetIPAddress c;
      WaitUntilReady (k ip err) c
  | WaitLivenessCheckPorts k =>
      '(r, c) ← LivenessCheckPorts c;
      WaitUntilReady (k r) c
  | WaitProbe what k =>
      b ← call (CallProbe what) (fun h => Probe (client (provider c)) h what);
      WaitUntilReady (k b) c
  end.

Definition Start (c : DockerContainer) : M (option Error * DockerContainer) :=
  err ← call (CallContainerStart (ID c))
             (fun h => ContainerStart (client (provider c)) h (ID c));
  match err with
  | Some err => ret (Some err, c)
  | None =>
      match WaitingFor c with
      | Some ws => WaitUntilReady ws c
      | None => ret (None, c)
      end
  end.

Definition Terminate (c : DockerContainer) : M (option Error) :=
  call (CallContainerRemove (ID c) true)
       (fun h => ContainerRemove (client (provider c)) h (ID c) true).

(** ** reaper.go *)

(** [TestcontainerLabel] is used as a base for docker labels. *)
Definition TestcontainerLabel : string := "org.testcontainers.golang".
Definition TestcontainerLabelSessionID : string := TestcontainerLabel ++ ".sessionId".
Definition ReaperDefaultImage : string := "quay.io/testcontainers/ryuk:0.2.2".

Module iface.
(** [ReaperProvider]: anything with a [RunContainer] method.  The method
    can return a handle and an error together. *)
Record ReaperProvider : Type :=
  { RunContainer : ContainerRequest -> M (option DockerContainer * option Error) }.
End iface.
Abbreviation ReaperProvider := iface.ReaperProvider.

Record Reaper : Type :=
  { Provider : ReaperProvider;
    SessionID : string;
    Endpoint : string }.

Definition GetLabels (r : Reaper) : gmap string string :=
  {[ TestcontainerLabel := "true";
     TestcontainerLabelSessionID := SessionID r ]}.

(** The request [NewReaper] submits for the sidecar; the fields the
    literal leaves out have their zero values. *)
Definition reaperRequest (r : Reaper) : ContainerRequest :=
  {| req.Image := ReaperDefaultImage;
     req.Env := ∅;
     req.ExportedPort := [];
     req.Cmd := "";
     req.Labels := GetLabels r;
     req.RegistryCred := "";
     req.WaitingFor := None;
     req.Mounts :=
       [ {| mount.Type' := mount.TypeBind;
            mount.Source := "/var/run/docker.sock";
            mount.Target := "/var/run/docker.sock";
            mount.ReadOnly := false |} ] |}.

Section Runtime.

(** [nat.ParsePortSpecs] of the Docker library: the exposed ports and
    the host bindings a list of port specifications stands for. *)
Variable ParsePortSpecs : list string -> result (PortSet * PortMap).

(** The values [uuid.NewV4] hands out, in order. *)
Variable rand : nat -> uuid.UUID.

Definition NewV4 : M uuid.UUID :=
  fun w => Returns (rand (rand_pos w),
                    {| rand_pos := S (rand_pos w); calls := calls w |}).

Definition portNotFound (port : string) : Error :=
  Errorf ("port " ++ port ++ " not found").

(** [portOrder] is the visit of the port set parsed from [port]; the
    loop returns in its first round. *)
Definition GetHostEndpoint (c : DockerContainer) (port : string)
    (portOrder : list string)
  : M (string * option Error * DockerContainer) :=
  '(r, c) ← inspectContainer c;
  match r with
  | Err err => ret ("", Some err, c)
  | Ok inspect =>
      match ParsePortSpecs [port] with
      | Err err => ret ("", Some err, c)
      | Ok _ =>
          match portOrder with
          | p :: _ =>
              match types.Ports (types.NetworkSettings' inspect) !! p with
              | None => ret ("", Some (portNotFound port), c)
              | Some [] => ret ("", Some (portNotFound port), c)
              | Some (b :: _) =>
                  ret (nat_.HostIP b ++ ":" ++ nat_.HostPort b, None, c)
              end
          | [] => ret ("", Some (portNotFound port), c)
          end
      end
  end.

Definition NewReaper (sessionID : string) (provider : ReaperProvider)
    (portOrder : list string) : M (result Reaper) :=
  let r := {| Provider := provider; SessionID := sessionID; Endpoint := "" |} in
  let req := reaperRequest r in
  '(c, err) ← iface.RunContainer provider req;
  match err with
  | Some err => ret (Err err)
  | None =>
      match c with
      | None => panic "invalid memory address or nil pointer dereference"
      | Some c =>
          '(endpoint, err, _) ← GetHostEndpoint c "8080" portOrder;
          match err with
          | Some err => ret (Err err)
          | None =>
              ret (Ok {| Provider := provider; SessionID := sessionID;
                         Endpoint := endpoint |})
          end
      end
  end.

(** ** docker.go: the provider *)

(** The loop that fills [env], over the visit [envOrder] of [req.Env]. *)
Definition buildEnv (envOrder : list (string * string)) : list string :=
  fold_left (fun env '(envKey, envVar) => (env ++ [envKey +:+ "=" +:+ envVar])%list)
            envOrder [].

(** [dockerInput], with the command set when [req.Cmd] is not empty. *)
Definition dockerInput (req : ContainerRequest) (env : list string)
    (exposedPortSet : PortSet) (r : Reaper) : container.Config :=
  {| container.Image := req.Image req;
     container.Env := env;
     container.ExposedPorts := exposedPortSet;
     container.Labels := GetLabels r;
     container.Cmd :=
       if String.eqb (req.Cmd req) "" then []
       else strings.Split (req.Cmd req) space |}.

Definition hostConfig (req : ContainerRequest) (exposedPortMap : PortMap)
  : container.HostConfig :=
  {| container.PortBindings := exposedPortMap;
     container.Mounts := req.Mounts req |}.

Definition pullOpt (req : ContainerRequest) : types.ImagePullOptions :=
  {| types.RegistryAuth :=
       if String.eqb (req.RegistryCred req) "" then "" else req.RegistryCred req |}.

(** The create call and the handle around its answer. *)
Definition createHandle (p : DockerProvider) (req : ContainerRequest)
    (sessionID : uuid.UUID) (config : container.Config)
    (hostCfg : container.HostConfig) : M (result DockerContainer) :=
  resp ← call (CallContainerCreate config hostCfg)
              (fun h => ContainerCreate (client p) h config hostCfg);
  match resp with
  | Err err => ret (Err err)
  | Ok id =>
      ret (Ok {| ID := id; WaitingFor := req.WaitingFor req;
                 sessionID := sessionID; raw := None; provider := p |})
  end.

(** The body of [CreateContainer].  [self] is the provider handed to
    [NewReaper]; in the source it is [p] itself (see [CreateContainer]
    below).  The deferred [pull.Close()] runs on every return after the
    pull. *)
Definition CreateContainer_body (self : ReaperProvider) (p : DockerProvider)
    (req : ContainerRequest) (envOrder : list (string * string))
    (portOrder : list string) : M (result DockerContainer) :=
  match ParsePortSpecs (req.ExportedPort req) with
  | Err err => ret (Err err)
  | Ok (exposedPortSet, exposedPortMap) =>
      let env := buildEnv envOrder in
      sessionID ← NewV4;
      r ← NewReaper (uuid.String' sessionID) self portOrder;
      match r with
      | Err err => ret (Err (Wrap err "creating reaper failed"))
      | Ok r =>
          let config := dockerInput req env exposedPortSet r in
          let create :=
            createHandle p req sessionID config (hostConfig req exposedPortMap) in
          err ← call (CallImageInspectWithRaw (req.Image req))
                     (fun h => ImageInspectWithRaw (client p) h (req.Image req));
          match err with
          | None => create
          | Some err =>
              if IsErrNotFound err then
                err ← call (CallImagePull (req.Image req) (pullOpt req))
                           (fun h => ImagePull (client p) h (req.Image req) (pullOpt req));
                match err with
                | Some err => ret (Err err)
                | None =>
                    err ← call CallReadAll (fun h => ReadAll (client p) h);
                    match err with
                    | Some err =>
                        _ ← call CallPullClose (fun _ => tt);
                        ret (Err err)
                    | None =>
                        c ← create;
                        _ ← call CallPullClose (fun _ => tt);
                        ret c
                    end
                end
              else ret (Err err)
          end
      end
  end.

(** The body of [RunContainer], around the outcome [create] of
    [p.CreateContainer(ctx, req)]. *)
Definition RunContainer_body (create : M (result DockerContainer))
  : M (option DockerContainer * option Error) :=
  r ← create;
  match r with
  | Err err => ret (None, Some err)
  | Ok c =>
      '(err, c) ← Start c;
      match err with
      | Some err => ret (Some c, Some (Wrap err "could not start container"))
      | None => ret (Some c, None)
      end
  end.

(** [CreateContainer] and [RunContainer] call each other through
    [NewReaper], which is handed [p] as its provider; [fuel] bounds the
    depth of that recursion.  The request of a nested call is the
    sidecar's, whose [Env] is empty, so its visit is the empty one. *)
Fixpoint CreateContainer (fuel : nat) (p : DockerProvider)
    (req : ContainerRequest) (envOrder : list (string * string))
    (portOrder : list string) : M (result DockerContainer) :=
  match fuel with
  | O => fun w => OutOfFuel w
  | S fuel' =>
      CreateContainer_body
        {| iface.RunContainer := fun req' =>
             RunContainer_body
               (CreateContainer fuel' p req' (map_to_list (req.Env req')) portOrder) |}
        p req envOrder portOrder
  end.

Definition RunContainer (fuel : nat) (p : DockerProvider)
    (req : ContainerRequest) (envOrder : list (string * string))
    (portOrder : list string) : M (option DockerContainer * option Error) :=
  RunContainer_body (CreateContainer fuel p req envOrder portOrder).

(** [*DockerProvider] as a [ReaperProvider]. *)
Definition asReaperProvider (fuel : nat) (p : DockerProvider)
    (portOrder : list string) : ReaperProvider :=
  {| iface.RunContainer := fun req' =>
       RunContainer fuel p req' (map_to_list (req.Env req')) portOrder |}.

End Runtime.

(** ** reaper.go: Connect *)

(** The connection to the sidecar behind [bufio.NewReadWriter]: what the
    peer sends before its side of the stream ends, how each write to the
    connection will fare (a write beyond the script succeeds), the
    buffered writer with its sticky error, and what reached the peer.
    Every read returns: it finds the delimiter or the end of the stream.
    The buffer is taken to be large enough for what is written between
    two flushes. *)
Module bufio.

Inductive SockCall : Type :=
| CallWriteString (s : string)
| CallFlush
| CallReadString
| CallClose.

Record Conn : Type :=
  { inbound : string;
    writes : list bool;
    wbuf : string;
    werr : option Error;
    wire : string;
    closed : bool;
    log : list SockCall }.

Definition EOF : Error := IOError "EOF".

(** [Writer.WriteString]: nothing is accepted after an error. *)
Definition WriteString (s : string) (c : Conn) : Conn :=
  {| inbound := inbound c; writes := writes c;
     wbuf := match werr c with Some _ => wbuf c | None => wbuf c +:+ s end;
     werr := werr c; wire := wire c; closed := closed c;
     log := CallWriteString s :: log c |}.

(** [Writer.Flush]: the sticky error if there is one; else the buffer
    goes to the connection in one write, unless it is empty. *)
Definition Flush (c : Conn) : option Error * Conn :=
  let logged := CallFlush :: log c in
  match werr c with
  | Some err =>
      (Some err, {| inbound := inbound c; writes := writes c; wbuf := wbuf c;
                    werr := werr c; wire := wire c; closed := closed c;
                    log := logged |})
  | None =>
      if String.eqb (wbuf c) "" then
        (None, {| inbound := inbound c; writes := writes c; wbuf := "";
                  werr := None; wire := wire c; closed := closed c;
                  log := logged |})
      else
        match writes c with
        | false :: later =>
            let err := IOError "write failed" in
            (Some err, {| inbound := inbound c; writes := later; wbuf := wbuf c;
                          werr := Some err; wire := wire c; closed := closed c;
                          log := logged |})
        | _ =>
            (None, {| inbound := inbound c; writes := tail (writes c); wbuf := "";
                      werr := None; wire := wire c +:+ wbuf c; closed := closed c;
                      log := logged |})
        end
  end.

(** The bytes of [s] up to and including the first [delim], and the
    rest; [None] if [delim] does not occur. *)
Fixpoint readUntil (s : string) (delim : ascii) : option (string * string) :=
  match s with
  | EmptyString => None
  | String b rest =>
      if Ascii.eqb b delim then Some (String b "", rest)
      else match readUntil rest delim with
           | Some (line, rest') => Some (String b line, rest')
           | None => None
           end
  end.

(** [Reader.ReadString(delim)]: the data up to and including the
    delimiter; at the end of the stream, the data read so far and the
    error. *)
Definition ReadString (delim : ascii) (c : Conn) : string * option Error * Conn :=
  let logged := CallReadString :: log c in
  match readUntil (inbound c) delim with
  | Some (line, rest) =>
      (line, None, {| inbound := rest; writes := writes c; wbuf := wbuf c;
                      werr := werr c; wire := wire c; closed := closed c;
                      log := logged |})
  | None =>
      (inbound c, Some EOF, {| inbound := ""; writes := writes c; wbuf := wbuf c;
                               werr := werr c; wire := wire c; closed := closed c;
                               log := logged |})
  end.

Definition Close (c : Conn) : Conn :=
  {| inbound := inbound c; writes := writes c; wbuf := wbuf c; werr := werr c;
     wire := wire c; closed := true; log := CallClose :: log c |}.

(** A connection just dialled, to a peer that will send [reply]. *)
Definition dialled (reply : string) (script : list bool) : Conn :=
  {| inbound := reply; writes := script; wbuf := ""; werr := None;
     wire := ""; closed := false; log := [] |}.

End bufio.

Definition zombieWarning : string :=
  "Warning: Could not instrument reaper sidecar. Check for zombie containers!".

(** The loop that fills [labelFilters], over the visit [order] of
    [r.GetLabels()]. *)
Definition labelFilters (order : list (string * string)) : list string :=
  fold_left (fun filters '(l, v) => (filters ++ ["label=" +:+ l +:+ "=" +:+ v])%list)
            order [].

(** The [for] loop of the watcher, from the test of [retryLimit] on;
    [true] is the [break], [false] the [return] after the warning. *)
Fixpoint handshake (filters : list string) (retryLimit : nat) (sock : bufio.Conn)
  : bool * bufio.Conn :=
  match retryLimit with
  | O => (false, sock)
  | S retryLimit =>
      let sock := bufio.WriteString (strings.Join filters "&") sock in
      let '(err, sock) := bufio.Flush sock in
      match err with
      | Some _ => handshake filters retryLimit sock
      | None =>
          let '(resp, err, sock) := bufio.ReadString newline sock in
          match err with
          | Some _ => handshake filters retryLimit sock
          | None =>
              if String.eqb resp "ACK" then (true, sock)
              else handshake filters retryLimit sock
          end
      end
  end.

(** Where the goroutine is: blocked on [<-terminationSignal], or gone
    (its deferred [conn.Close()] done). *)
Inductive WatcherState : Type := AwaitingSignal | Exited.

Record Watcher : Type :=
  { state : WatcherState;
    sock : bufio.Conn;
    stdout : list string }.

(** The goroutine [Connect] starts, run until it blocks or returns. *)
Definition watcher (order : list (string * string)) (conn : bufio.Conn) : Watcher :=
  match handshake (labelFilters order) 3 conn with
  | (true, sock) => {| state := AwaitingSignal; sock := sock; stdout := [] |}
  | (false, sock) =>
      {| state := Exited; sock := bufio.Close sock; stdout := [zombieWarning] |}
  end.




(** The attempts of a handshake: the filter lines handed to the writer. *)
Definition attempts (c : bufio.Conn) : nat :=
  length (List.filter (fun e => match e with bufio.CallWriteString _ => true | _ => false end)
                 (bufio.log c)).


(** ** Sequences of operations on one handle *)

(** What a caller can do with a handle, and [OpElsewhere]: the daemon's
    state changing behind the handle's back. *)
Inductive HandleOp : Type :=
| OpGetPorts
| OpLivenessCheckPorts
| OpGetIPAddress
| OpGetMappedPort (port : Z) (order : list (string * list nat_.PortBinding))
| OpGetHostEndpoint (port : string) (portOrder : list string)
| OpStart
| OpTerminate
| OpElsewhere (what : string).

Section Operations.

Variable ParsePortSpecs : list string -> result (PortSet * PortMap).

Definition perform (op : HandleOp) (c : DockerContainer) : M DockerContainer :=
  match op with
  | OpGetPorts => '(_, c) ← GetPorts c; ret c
  | OpLivenessCheckPorts => '(_, c) ← LivenessCheckPorts c; ret c
  | OpGetIPAddress => '(_, _, c) ← GetIPAddress c; ret c
  | OpGetMappedPort port order => '(_, _, c) ← GetMappedPort c port order; ret c
  | OpGetHostEndpoint port portOrder =>
      '(_, _, c) ← GetHostEndpoint ParsePortSpecs c port portOrder; ret c
  | OpStart => '(_, c) ← Start c; ret c
  | OpTerminate => _ ← Terminate c; ret c
  | OpElsewhere what => _ ← call (CallExternal what) (fun _ => tt); ret c
  end.

Fixpoint performAll (ops : list HandleOp) (c : DockerContainer) : M DockerContainer :=
  match ops with
  | [] => ret c
  | op :: ops => c ← perform op c; performAll ops c
  end.

End Operations.


(** A provider that never takes the UUID generator back. *)
Definition forward (self : ReaperProvider) : Prop :=
  forall req w r w', iface.RunContainer self req w = Returns (r, w') ->
                     rand_pos w <= rand_pos w'.

(** How a handle can differ after an operation: not at all, or by an
    inspect result stored in a cache that was empty. *)
Definition evolves (c c' : DockerContainer) : Prop :=
  c' = c \/ exists inspect, raw c = None /\ c' = set_raw c inspect.

Definition isRemove (e : ClientCall) : bool :=
  match e with
  | CallContainerRemove _ _ => true
  | _ => false
  end.

(** From [w] to [w'] the history only grew, and by no removal. *)
Definition keeps (w w' : World) : Prop :=
  rand_pos w' = rand_pos w
  /\ exists more, calls w' = (more ++ calls w)%list
                /\ Forall (fun e => isRemove e = false) more.

Definition isInspect (e : ClientCall) : bool :=
  match e with
  | CallContainerInspect _ => true
  | _ => false
  end.

(** How often the daemon was asked to inspect a container. *)
Definition inspects (h : list ClientCall) : nat := length (List.filter isInspect h).

(** From [w] to [w'] the history grew by calls that all pass [ok], and
    no UUID was drawn. *)
Definition grows (ok : ClientCall -> bool) (w w' : World) : Prop :=
  rand_pos w' = rand_pos w
  /\ exists more, calls w' = (more ++ calls w)%list
                /\ Forall (fun e => ok e = true) more.

(** What [Start] may ask after the start call: inspects of the same
    container, and probes. *)
Definition startTraffic (id : string) (e : ClientCall) : bool :=
  match e with
  | CallContainerInspect id' => String.eqb id' id
  | CallProbe _ => true
  | _ => false
  end.

(** The flushes and the reads a connection has seen. *)
Definition flushes (c : bufio.Conn) : nat :=
  length (List.filter (fun e => match e with bufio.CallFlush => true | _ => false end)
                      (bufio.log c)).

Definition reads (c : bufio.Conn) : nat :=
  length (List.filter (fun e => match e with bufio.CallReadString => true | _ => false end)
                      (bufio.log c)).

(** [k] copies of [s], one after the other. *)
Fixpoint copies (k : nat) (s : string) : string :=
  match k with
  | O => ""
  | S k => s +:+ copies k s
  end.

(** One clause of the label filter. *)
Definition clause (lv : string * string) : string := "label=" +:+ lv.1 +:+ "=" +:+ lv.2.

(** ** The specification's wording, for comparison with the code *)

(** "Build the environment variable list from the request's mapping ...
    sort by key": the [key=value] entries in the order of their keys. *)
Definition entry (kv : string * string) : string := kv.1 +:+ "=" +:+ kv.2.

Definition key_le (a b : string * string) : Prop := String.leb a.1 b.1 = true.

#[global] Instance key_le_dec (a b : string * string) : Decision (key_le a b) :=
  decide (String.leb a.1 b.1 = true).

Definition envSortedByKey (m : gmap string string) : list string :=
  entry <$> merge_sort key_le (map_to_list m).


(** ** Scenarios *)

Module scenario.

(** A [ParsePortSpecs] for specifications that are bare container ports:
    each is exposed over tcp and bound to a host port of Docker's choice. *)
Definition plainPorts (specs : list string) : result (PortSet * PortMap) :=
  Ok (list_to_set ((fun s => s +:+ "/tcp") <$> specs),
      list_to_map ((fun s => (s +:+ "/tcp",
                              [ {| nat_.HostIP := ""; nat_.HostPort := "" |} ])) <$> specs)).

(** A generator that never repeats itself. *)
Definition serial (n : nat) : uuid.UUID :=
  {| uuid.String' := "session-" +:+ strconv.Itoa (Z.of_nat n) |}.

(** What an inspect of a running sidecar tells. *)
Definition sidecarJSON : types.ContainerJSON :=
  {| types.Config :=
       {| container.Image := ReaperDefaultImage; container.Env := [];
          container.ExposedPorts := {[ "8080/tcp" ]};
          container.Labels := ∅; container.Cmd := [] |};
     types.NetworkSettings' :=
       {| types.Ports :=
            {[ "8080/tcp" := [ {| nat_.HostIP := "0.0.0.0"; nat_.HostPort := "32768" |} ] ]};
          types.IPAddress := "172.17.0.2" |} |}.

(** A container that exposes port 80 without publishing it. *)
Definition unpublishedJSON : types.ContainerJSON :=
  {| types.Config :=
       {| container.Image := "nginx"; container.Env := [];
          container.ExposedPorts := {[ "80/tcp" ]};
          container.Labels := ∅; container.Cmd := [] |};
     types.NetworkSettings' :=
       {| types.Ports := {[ "80/tcp" := [] ]};
          types.IPAddress := "172.17.0.3" |} |}.

(** A daemon that has every image, names the containers it creates by
    their number, and answers start and inspect as told. *)
Definition created (h : list ClientCall) : nat :=
  length (List.filter (fun e => match e with CallContainerCreate _ _ => true | _ => false end) h).

Definition daemon (start : option Error)
    (inspect : list ClientCall -> result types.ContainerJSON) : Client :=
  {| ImageInspectWithRaw := fun _ _ => None;
     ImagePull := fun _ _ _ => None;
     ReadAll := fun _ => None;
     ContainerCreate := fun h _ _ => Ok ("container-" +:+ strconv.Itoa (Z.of_nat (created h)));
     ContainerStart := fun _ _ => start;
     ContainerInspect := fun h _ => inspect h;
     ContainerRemove := fun _ _ _ => None;
     Probe := fun _ _ => true |}.

Definition healthy : DockerProvider :=
  {| client := daemon None (fun _ => Ok sidecarJSON) |}.

Definition startFails : DockerProvider :=
  {| client := daemon (Some (ClientError false "driver failed")) (fun _ => Ok sidecarJSON) |}.

(** A daemon whose container moves to another address, and loses its
    published port, as soon as anything happens to it from outside. *)
Definition movedJSON : types.ContainerJSON :=
  {| types.Config :=
       {| container.Image := ReaperDefaultImage; container.Env := [];
          container.ExposedPorts := ∅;
          container.Labels := ∅; container.Cmd := [] |};
     types.NetworkSettings' := {| types.Ports := ∅; types.IPAddress := "172.17.0.9" |} |}.

Definition isExternal (e : ClientCall) : bool :=
  match e with
  | CallExternal _ => true
  | _ => false
  end.

Definition restless : DockerProvider :=
  {| client := daemon None (fun h => if existsb isExternal h then Ok movedJSON
                                     else Ok sidecarJSON) |}.

(** A sidecar that is up, whatever was asked for: the handle of a
    running container with port 8080 published. *)
Definition sidecarHandle : DockerContainer :=
  {| ID := "ryuk"; WaitingFor := None; sessionID := serial 0;
     raw := Some sidecarJSON; provider := healthy |}.

Definition sidecarUp : ReaperProvider :=
  {| iface.RunContainer := fun _ => mret (Some sidecarHandle, None) |}.

(** A handle whose inspect result, already cached, is [unpublishedJSON]. *)
Definition unpublishedHandle : DockerContainer :=
  {| ID := "web"; WaitingFor := None; sessionID := serial 0;
     raw := Some unpublishedJSON; provider := healthy |}.

Definition freshHandle : DockerContainer :=
  {| ID := "ryuk"; WaitingFor := None; sessionID := serial 0;
     raw := None; provider := restless |}.

Definition boot : World := {| rand_pos := 0; calls := [] |}.

(** The handle and the world a call of [CreateContainer] left. *)
Definition handleOf (x : Exec (result DockerContainer * World)) : DockerContainer :=
  match x with
  | Returns (Ok c, _) => c
  | _ => freshHandle
  end.

Definition worldOf {A} (x : Exec (A * World)) : World :=
  match x with
  | Returns (_, w) => w
  | _ => boot
  end.

Definition alpine : ContainerRequest :=
  {| req.Image := "alpine"; req.Env := {[ "A" := "1"; "B" := "2" ]};
     req.ExportedPort := ["80"]; req.Cmd := "echo hello world";
     req.Labels := {[ "team" := "db" ]}; req.RegistryCred := "";
     req.WaitingFor := None; req.Mounts := [] |}.

(** Two containers asked for one after the other, the reaper's sidecar
    being up each time. *)
Definition firstCreated : Exec (result DockerContainer * World) :=
  CreateContainer_body plainPorts serial sidecarUp healthy alpine
    [("A", "1"); ("B", "2")] ["8080/tcp"] boot.

Definition secondCreated : Exec (result DockerContainer * World) :=
  CreateContainer_body plainPorts serial sidecarUp startFails alpine
    [("B", "2"); ("A", "1")] ["8080/tcp"] (worldOf firstCreated).

(** A request run on a daemon that creates the container but fails to
    start it. *)
Definition createdUnstartable : Exec (result DockerContainer * World) :=
  CreateContainer_body plainPorts serial sidecarUp startFails alpine
    [("A", "1"); ("B", "2")] ["8080/tcp"] boot.

Definition startAttempt : Exec (option Error * DockerContainer * World) :=
  Start (handleOf createdUnstartable) (worldOf createdUnstartable).

Definition startedHandle (x : Exec (option Error * DockerContainer * World))
  : DockerContainer :=
  match x with
  | Returns (_, c, _) => c
  | _ => freshHandle
  end.

(** A handle used for a while: first inspected, then the container is
    restarted and gets another address behind its back, and the handle is
    asked again, started and terminated. *)
Definition firstInspect : Exec (result types.ContainerJSON * DockerContainer * World) :=
  inspectContainer freshHandle boot.

Definition inspected : DockerContainer :=
  match firstInspect with
  | Returns (_, c, _) => c
  | _ => freshHandle
  end.

Definition busy : list HandleOp :=
  [ OpElsewhere "restarted with another address"; OpGetPorts; OpStart;
    OpGetMappedPort 8080 [("8080/tcp", [ {| nat_.HostIP := "0.0.0.0"; nat_.HostPort := "32768" |} ])];
    OpGetHostEndpoint "8080" ["8080/tcp"]; OpGetIPAddress; OpTerminate ].

Definition later : World :=
  {| rand_pos := 7; calls := [CallExternal "network changed"] |}.

(** The labels of session ["s"], in one of the two orders a loop can
    visit them. *)
Definition reaperS : Reaper :=
  {| Provider := sidecarUp; SessionID := "s"; Endpoint := "localhost:32768" |}.

Definition labelOrder : list (string * string) :=
  [ (TestcontainerLabel, "true"); (TestcontainerLabelSessionID, "s") ].

Definition filterS : string :=
  "label=org.testcontainers.golang=true&label=org.testcontainers.golang.sessionId=s".

(** A sidecar that acknowledges every line it gets, as its protocol
    says: [ACK] and a newline. *)
Definition ackLine : string := String "A" (String "C" (String "K" (String newline ""))).

Definition acksThrice : bufio.Conn := bufio.dialled (ackLine +:+ ackLine +:+ ackLine) [].


(** A daemon that cannot inspect, and a handle on it. *)
Definition inspectFails : DockerProvider :=
  {| client := daemon None (fun _ => Err (ClientError true "No such container: gone")) |}.

Definition goneHandle : DockerContainer :=
  {| ID := "gone"; WaitingFor := None; sessionID := serial 0;
     raw := None; provider := inspectFails |}.

(** A provider that answers with neither a handle nor an error. *)
Definition nilProvider : ReaperProvider :=
  {| iface.RunContainer := fun _ => mret (None, None) |}.

(** A provider whose sidecar was created but did not start. *)
Definition sidecarStuck : ReaperProvider :=
  {| iface.RunContainer := fun _ =>
       mret (Some sidecarHandle, Some (Wrap (ClientError false "driver failed")
                                            "could not start container")) |}.

(** A [ParsePortSpecs] that, like the library's, rejects an empty
    specification. *)
Definition pickyPorts (specs : list string) : result (PortSet * PortMap) :=
  if existsb (String.eqb "") specs then Err (Errorf "No port specified: <empty>")
  else plainPorts specs.

Definition noPort : ContainerRequest :=
  {| req.Image := "alpine"; req.Env := ∅; req.ExportedPort := [""]; req.Cmd := "";
     req.Labels := ∅; req.RegistryCred := ""; req.WaitingFor := None; req.Mounts := [] |}.

(** A container that publishes port 80 over tcp and over udp, on two
    host ports. *)
Definition tcp80 : nat_.PortBinding := {| nat_.HostIP := "0.0.0.0"; nat_.HostPort := "32770" |}.
Definition udp80 : nat_.PortBinding := {| nat_.HostIP := "0.0.0.0"; nat_.HostPort := "32771" |}.

Definition twoProtocolsJSON : types.ContainerJSON :=
  {| types.Config :=
       {| container.Image := "dns"; container.Env := [];
          container.ExposedPorts := {[ "80/tcp"; "80/udp" ]};
          container.Labels := ∅; container.Cmd := [] |};
     types.NetworkSettings' :=
       {| types.Ports := {[ "80/tcp" := [tcp80]; "80/udp" := [udp80] ]};
          types.IPAddress := "172.17.0.4" |} |}.

Definition twoProtocolsHandle : DockerContainer :=
  {| ID := "dns"; WaitingFor := None; sessionID := serial 0;
     raw := Some twoProtocolsJSON; provider := healthy |}.



(** A handle that waits for an address and for the ports before it
    counts as started. *)
Definition waitsForAddress : WaitStrategy :=
  WaitGetIPAddress (fun _ err =>
    match err with
    | Some e => WaitReturn (Some e)
    | None => WaitLivenessCheckPorts (fun _ => WaitProbe "tcp" (fun ok =>
                WaitReturn (if ok then None else Some (Errorf "timeout"))))
    end).

Definition waitingHandle : DockerContainer :=
  {| ID := "web"; WaitingFor := Some waitsForAddress; sessionID := serial 0;
     raw := None; provider := healthy |}.

End scenario.

(** * Properties *)

Example Itoa_80 : strconv.Itoa 80 = "80".
Proof. reflexivity. Qed.

Example Itoa_0 : strconv.Itoa 0 = "0".
Proof. reflexivity. Qed.

Example Split_double_space : strings.Split "echo  a b" space = ["echo"; ""; "a"; "b"].
Proof. reflexivity. Qed.

Example Port_of_8080_tcp : nat_.Port_Port "8080/tcp" = "8080".
Proof. reflexivity. Qed.

Example envSortedByKey_alpine :
  envSortedByKey (req.Env scenario.alpine) = ["A=1"; "B=2"].
Proof. vm_compute. reflexivity. Qed.

Example watcher_acksThrice :
  state (watcher scenario.labelOrder scenario.acksThrice) = Exited.
Proof. vm_compute. reflexivity. Qed.

Example create_alpine :
  exists c w, CreateContainer_body scenario.plainPorts scenario.serial scenario.sidecarUp
         scenario.healthy scenario.alpine [("B", "2"); ("A", "1")] ["8080/tcp"] scenario.boot
       = Returns (Ok c, w) /\ ID c = "container-0" /\ sessionID c = scenario.serial 0.
Proof. eexists _, _. vm_compute. split_and!; reflexivity. Qed.

(** ** Strings *)

Lemma Split_nonempty s sep : strings.Split s sep <> [].
Proof. destruct s as [|c s]; simpl; [done|]. repeat case_match; done. Qed.

Lemma Split_no_separator s sep :
  Forall (fun piece => strings.ContainsByte piece sep = false) (strings.Split s sep).
Proof.
  induction s as [|c s IH]; simpl.
  - by constructor.
  - destruct (Ascii.eqb c sep) eqn:Hc.
    + by constructor.
    + destruct (strings.Split s sep) as [|piece pieces]; [by repeat constructor; simpl; rewrite Hc|].
      inversion IH; subst. constructor; [|done]. simpl. by rewrite Hc.
Qed.

Lemma Join_cons e acc rest sep :
  strings.Join (e :: acc :: rest) sep = e +:+ sep +:+ strings.Join (acc :: rest) sep.
Proof. reflexivity. Qed.

Lemma Join_Split s sep : strings.Join (strings.Split s sep) (String sep "") = s.
Proof.
  induction s as [|c s IH]; simpl; [done|].
  destruct (Ascii.eqb c sep) eqn:Hc.
  - apply Ascii.eqb_eq in Hc as ->.
    pose proof (Split_nonempty s sep).
    destruct (strings.Split s sep) as [|piece pieces]; [done|].
    rewrite Join_cons. simpl. by rewrite <- IH.
  - pose proof (Split_nonempty s sep).
    destruct (strings.Split s sep) as [|piece pieces]; [done|].
    destruct pieces as [|piece' pieces]; simpl in *; by rewrite <- IH.
Qed.

(** ** The command of the created container *)

(** C10: when [req.Cmd] is the empty string no command is set on the
    container configuration; otherwise the command is [req.Cmd] split at
    every single space.  No argument of the resulting vector contains a
    space, and joining the vector with spaces gives [req.Cmd] back, so an
    argument with a space in it cannot be expressed. *)
Theorem dockerInput_Cmd_split_on_spaces (req : ContainerRequest) (env : list string)
    (exposedPortSet : PortSet) (r : Reaper) :
  let config := dockerInput req env exposedPortSet r in
  container.Cmd config
    = (if String.eqb (req.Cmd req) "" then [] else strings.Split (req.Cmd req) space)
  /\ Forall (fun arg => strings.ContainsByte arg space = false) (container.Cmd config)
  /\ strings.Join (strings.Split (req.Cmd req) space) " " = req.Cmd req.
Proof.
  simpl. split_and!; [done| |apply Join_Split].
  destruct (String.eqb (req.Cmd req) ""); [constructor|apply Split_no_separator].
Qed.

(** ** The environment list *)

Lemma buildEnv_entries envOrder : buildEnv envOrder = entry <$> envOrder.
Proof.
  unfold buildEnv.
  enough (H : forall acc : list string,
             fold_left (fun env '(envKey, envVar) => (env ++ [envKey +:+ "=" +:+ envVar])%list)
                       envOrder acc = (acc ++ (entry <$> envOrder))%list)
    by apply (H []).
  induction envOrder as [|[k v] rest IH]; intros acc; simpl.
  - by rewrite app_nil_r.
  - rewrite IH, <- app_assoc. reflexivity.
Qed.

Lemma RangeOf_two (k1 k2 v1 v2 : string) :
  k1 <> k2 ->
  RangeOf ({[ k1 := v1; k2 := v2 ]} : gmap string string) [(k2, v2); (k1, v1)]
  /\ RangeOf ({[ k1 := v1; k2 := v2 ]} : gmap string string) [(k1, v1); (k2, v2)].
Proof.
  intros Hne. unfold RangeOf.
  assert (H : map_to_list ({[ k1 := v1; k2 := v2 ]} : gmap string string)
              ≡ₚ [(k1, v1); (k2, v2)]).
  { rewrite map_to_list_insert by by rewrite lookup_singleton_ne.
    by rewrite map_to_list_singleton. }
  split; rewrite H; [apply perm_swap|done].
Qed.

(** C9, as the specification words it, fails: the loop over [req.Env]
    can visit ["B"] before ["A"], and then the list is not the one sorted
    by key, nor the one another visit of the same mapping gives. *)
Lemma buildEnv_not_sorted :
  let m : gmap string string := {[ "A" := "1"; "B" := "2" ]} in
  RangeOf m [("B", "2"); ("A", "1")]
  /\ RangeOf m [("A", "1"); ("B", "2")]
  /\ buildEnv [("B", "2"); ("A", "1")] = ["B=2"; "A=1"]
  /\ envSortedByKey m = ["A=1"; "B=2"]
  /\ buildEnv [("B", "2"); ("A", "1")] <> envSortedByKey m
  /\ buildEnv [("B", "2"); ("A", "1")] <> buildEnv [("A", "1"); ("B", "2")].
Proof.
  intros m.
  destruct (RangeOf_two "A" "B" "1" "2") as [H1 H2]; [done|].
  split_and!; [exact H1|exact H2|reflexivity|by vm_compute|by vm_compute|by vm_compute].
Qed.

(** C9, amended: the list [CreateContainer] builds holds exactly the
    [key=value] entries of [req.Env], one per key, in the order in which
    the loop happened to visit the mapping: it is a rearrangement of the
    list sorted by key, and it is as long as the mapping has entries. *)
Theorem buildEnv_permutation_of_sorted (m : gmap string string)
    (envOrder : list (string * string)) :
  RangeOf m envOrder ->
  buildEnv envOrder ≡ₚ envSortedByKey m
  /\ length (buildEnv envOrder) = size m
  /\ forall e, e ∈ buildEnv envOrder <-> exists k v, m !! k = Some v /\ e = k +:+ "=" +:+ v.
Proof.
  unfold RangeOf. intros Hrange.
  rewrite buildEnv_entries. unfold envSortedByKey.
  split_and!.
  - rewrite merge_sort_Permutation. by apply fmap_Permutation.
  - rewrite length_fmap, Hrange. by rewrite length_map_to_list.
  - intros e. rewrite list_elem_of_fmap. split.
    + intros ([k v] & Heq & Hin). exists k, v. split; [|done].
      rewrite Hrange in Hin. by apply elem_of_map_to_list in Hin.
    + intros (k & v & Hm & Heq). exists (k, v). split; [done|].
      rewrite Hrange. by apply elem_of_map_to_list.
Qed.

Lemma buildEnv_permutation_of_sorted_witness :
  buildEnv [("B", "2"); ("A", "1")] ≡ₚ envSortedByKey {[ "A" := "1"; "B" := "2" ]}.
Proof.
  apply (buildEnv_permutation_of_sorted {[ "A" := "1"; "B" := "2" ]}).
  apply RangeOf_two. done.
Defined.

(** ** The labels of the created container *)

Lemma TestcontainerLabel_ne : TestcontainerLabel <> TestcontainerLabelSessionID.
Proof. by vm_compute. Qed.


Lemma GetLabels_session r :
  GetLabels r !! TestcontainerLabelSessionID = Some (SessionID r).
Proof.
  unfold GetLabels.
  rewrite lookup_insert_ne by apply TestcontainerLabel_ne.
  apply lookup_singleton_eq.
Qed.




(** ** Running the provider *)

Ltac run := unfold mbind, M_bind, bind, mret, M_ret, ret, call, panic in *; simpl in *.

Ltac cases := repeat (case_match; simplify_eq/=; try done).

Lemma NewReaper_returns P sid self po w r w' :
  NewReaper P sid self po w = Returns (Ok r, w') ->
  SessionID r = sid /\ Provider r = self.
Proof.
  unfold NewReaper, GetHostEndpoint, inspectContainer. run. intros H. cases.
Qed.


(** With [p] itself as the reaper's provider, as in the source, creating
    a container needs a reaper, whose sidecar is a container to create,
    which needs a reaper of its own, and so on: whatever the fuel, a call
    of [CreateContainer] either fails on the port specifications of the
    request or has not returned when the fuel is spent: by then it has
    drawn one session identifier per level and has not talked to the
    daemon once.  ([ParsePortSpecs] accepts the empty list of the
    sidecar's request.) *)
Lemma CreateContainer_recursion P rand fuel p req eo po w x :
  P [] = Ok x ->
  (exists w', CreateContainer P rand fuel p req eo po w = OutOfFuel w'
              /\ rand_pos w' = rand_pos w + fuel /\ calls w' = calls w)
  \/ exists e, P (req.ExportedPort req) = Err e
            /\ CreateContainer P rand fuel p req eo po w = Returns (Err e, w).
Proof.
  intros HP. revert req eo w.
  induction fuel as [|fuel IH]; intros req eo w.
  { left. exists w. split_and!; [done|simpl; lia|done]. }
  simpl. unfold CreateContainer_body.
  destruct (P (req.ExportedPort req)) as [[ps pm]|e] eqn:Hreq; [left|right; eauto].
  unfold NewV4, NewReaper, RunContainer_body. run.
  match goal with
  | |- context [CreateContainer P rand fuel p ?r ?o po ?v] =>
      destruct (IH r o v) as [(w' & -> & Hpos & Hcalls)|(e & He & _)]
  end.
  - exists w'. simpl in *. split_and!; [done|lia|done].
  - simpl in He. congruence.
Qed.

Lemma RunContainer_recursion P rand fuel p req eo po w x :
  P [] = Ok x ->
  (exists w', RunContainer P rand fuel p req eo po w = OutOfFuel w'
              /\ rand_pos w' = rand_pos w + fuel /\ calls w' = calls w)
  \/ exists e, P (req.ExportedPort req) = Err e
            /\ RunContainer P rand fuel p req eo po w = Returns ((None, Some e), w).
Proof.
  intros HP. unfold RunContainer, RunContainer_body. run.
  destruct (CreateContainer_recursion P rand fuel p req eo po w x HP)
    as [(w' & -> & Hw')|(e & He & ->)]; [left; eauto|right; eauto].
Qed.

Lemma CreateContainer_unfold P rand fuel p req eo po :
  CreateContainer P rand (S fuel) p req eo po
  = CreateContainer_body P rand (asReaperProvider P rand fuel p po) p req eo po.
Proof. reflexivity. Qed.

(** [p] as the reaper's provider never takes the generator back: it
    returns only with the error of the port specifications. *)
Lemma asReaperProvider_forward P rand fuel p po x :
  P [] = Ok x -> forward (asReaperProvider P rand fuel p po).
Proof.
  intros HP req w r w' H. simpl in H.
  destruct (RunContainer_recursion P rand fuel p req (map_to_list (req.Env req)) po w x HP)
    as [(w0 & Hout & _)|(e & _ & Hret)]; rewrite H in *; by simplify_eq.
Qed.

(** The create call of a request with a command, two variables, a
    label and a port. *)
Example create_call_of_alpine :
  exists host rest,
    calls (scenario.worldOf scenario.secondCreated)
    = CallContainerCreate
        {| container.Image := "alpine";
           container.Env := ["B=2"; "A=1"];
           container.ExposedPorts := {[ "80/tcp" ]};
           container.Labels :=
             {[ "org.testcontainers.golang" := "true";
                "org.testcontainers.golang.sessionId" := "session-1" ]};
           container.Cmd := ["echo"; "hello"; "world"] |} host :: rest.
Proof. eexists _, _. vm_compute. reflexivity. Qed.

Example CreateContainer_alpine_runs_on :
  CreateContainer scenario.plainPorts scenario.serial 50 scenario.healthy
    scenario.alpine [("A", "1"); ("B", "2")] ["8080/tcp"] scenario.boot
  = OutOfFuel {| rand_pos := 50; calls := [] |}.
Proof. vm_compute. reflexivity. Qed.

(** ** Session identifiers *)










(** ** What the operations of a handle leave behind *)

Lemma evolves_refl c : evolves c c.
Proof. by left. Qed.

Lemma evolves_trans c1 c2 c3 : evolves c1 c2 -> evolves c2 c3 -> evolves c1 c3.
Proof.
  intros [->|(j & Hraw & ->)] H23; [done|].
  destruct H23 as [->|(j' & Hraw' & _)]; [right; eauto|]. done.
Qed.

Lemma evolves_ID c c' : evolves c c' -> ID c' = ID c.
Proof. by intros [->|(j & _ & ->)]. Qed.

Lemma evolves_cached c c' j : evolves c c' -> raw c = Some j -> c' = c.
Proof. intros [->|(j' & Hraw & _)] Hj; [done|congruence]. Qed.

Lemma keeps_refl w : keeps w w.
Proof. split; [done|]. exists []. by split. Qed.

Lemma keeps_trans w1 w2 w3 : keeps w1 w2 -> keeps w2 w3 -> keeps w1 w3.
Proof.
  intros (Hp & m & Hm & Hf) (Hp' & m' & Hm' & Hf'). split; [congruence|].
  exists (m' ++ m)%list. split; [by rewrite Hm', Hm, app_assoc|].
  by apply Forall_app.
Qed.

Lemma keeps_call w what :
  isRemove what = false ->
  keeps w {| rand_pos := rand_pos w; calls := what :: calls w |}.
Proof. intros H. split; [done|]. exists [what]. split; [done|]. by repeat constructor. Qed.



Create HintDb handle.
#[local] Hint Resolve evolves_refl keeps_refl : handle.

Lemma inspectContainer_leaves c w r c' w' :
  inspectContainer c w = Returns ((r, c'), w') -> evolves c c' /\ keeps w w'.
Proof.
  unfold inspectContainer. run. intros H.
  destruct (raw c) eqn:Hraw; simplify_eq/=; [auto with handle|].
  destruct (ContainerInspect _ _ _); simplify_eq/=.
  - split; [right; eauto|by apply keeps_call].
  - split; [auto with handle|by apply keeps_call].
Qed.

Lemma GetPorts_leaves c w r c' w' :
  GetPorts c w = Returns ((r, c'), w') -> evolves c c' /\ keeps w w'.
Proof.
  unfold GetPorts. run. intros H.
  destruct (inspectContainer c w) as [[[r0 c0] w0]| |] eqn:Hi; [|done..].
  apply inspectContainer_leaves in Hi. cases.
Qed.

Lemma GetIPAddress_leaves c w ip err c' w' :
  GetIPAddress c w = Returns ((ip, err, c'), w') -> evolves c c' /\ keeps w w'.
Proof.
  unfold GetIPAddress. run. intros H.
  destruct (inspectContainer c w) as [[[r0 c0] w0]| |] eqn:Hi; [|done..].
  apply inspectContainer_leaves in Hi. cases.
Qed.

Lemma GetMappedPort_leaves c port order w hp err c' w' :
  GetMappedPort c port order w = Returns ((hp, err, c'), w') ->
  evolves c c' /\ keeps w w'.
Proof.
  unfold GetMappedPort. run. intros H.
  destruct (inspectContainer c w) as [[[r0 c0] w0]| |] eqn:Hi; [|done..].
  apply inspectContainer_leaves in Hi. cases.
Qed.

Lemma GetHostEndpoint_leaves P c port po w ep err c' w' :
  GetHostEndpoint P c port po w = Returns ((ep, err, c'), w') ->
  evolves c c' /\ keeps w w'.
Proof.
  unfold GetHostEndpoint. run. intros H.
  destruct (inspectContainer c w) as [[[r0 c0] w0]| |] eqn:Hi; [|done..].
  apply inspectContainer_leaves in Hi. cases.
Qed.

Lemma WaitUntilReady_leaves ws c w err c' w' :
  WaitUntilReady ws c w = Returns ((err, c'), w') -> evolves c c' /\ keeps w w'.
Proof.
  revert c w. induction ws as [e|k IH|k IH|what k IH]; intros c w; simpl; run.
  - intros H. simplify_eq. auto with handle.
  - destruct (GetIPAddress c w) as [[[[ip e] c0] w0]| |] eqn:Hg; [|done..].
    apply GetIPAddress_leaves in Hg as [Hc Hw]. intros [Hc' Hw']%IH.
    eauto using evolves_trans, keeps_trans.
  - unfold LivenessCheckPorts.
    destruct (GetPorts c w) as [[[r c0] w0]| |] eqn:Hg; [|done..].
    apply GetPorts_leaves in Hg as [Hc Hw]. intros [Hc' Hw']%IH.
    eauto using evolves_trans, keeps_trans.
  - intros [Hc' Hw']%IH. split; [done|].
    eapply keeps_trans; [|exact Hw']. by apply keeps_call.
Qed.

Lemma Start_leaves c w err c' w' :
  Start c w = Returns ((err, c'), w') -> evolves c c' /\ keeps w w'.
Proof.
  unfold Start. run. intros H.
  destruct (ContainerStart _ _ _); simplify_eq/=.
  - split; [auto with handle|by apply keeps_call].
  - destruct (WaitingFor c) as [ws|]; simplify_eq/=.
    + apply WaitUntilReady_leaves in H as [Hc Hw]. split; [done|].
      eapply keeps_trans; [|exact Hw]. by apply keeps_call.
    + split; [auto with handle|by apply keeps_call].
Qed.

(** ** A failed start *)



(** ** The inspect cache *)

Lemma perform_cached P op c j w c' w' :
  raw c = Some j -> perform P op c w = Returns (c', w') -> c' = c.
Proof.
  intros Hraw. destruct op; simpl; run; intros H.
  - destruct (GetPorts c w) as [[[r c0] w0]| |] eqn:Hg; simplify_eq/=.
    apply GetPorts_leaves in Hg as [Hc _]. eauto using evolves_cached.
  - unfold LivenessCheckPorts in H.
    destruct (GetPorts c w) as [[[r c0] w0]| |] eqn:Hg; simplify_eq/=.
    apply GetPorts_leaves in Hg as [Hc _]. eauto using evolves_cached.
  - destruct (GetIPAddress c w) as [[[[ip e] c0] w0]| |] eqn:Hg; simplify_eq/=.
    apply GetIPAddress_leaves in Hg as [Hc _]. eauto using evolves_cached.
  - destruct (GetMappedPort c port order w) as [[[[hp e] c0] w0]| |] eqn:Hg; simplify_eq/=.
    apply GetMappedPort_leaves in Hg as [Hc _]. eauto using evolves_cached.
  - destruct (GetHostEndpoint P c port portOrder w) as [[[[ep e] c0] w0]| |] eqn:Hg;
      simplify_eq/=.
    apply GetHostEndpoint_leaves in Hg as [Hc _]. eauto using evolves_cached.
  - destruct (Start c w) as [[[e c0] w0]| |] eqn:Hg; simplify_eq/=.
    apply Start_leaves in Hg as [Hc _]. eauto using evolves_cached.
  - unfold Terminate in H. run. by simplify_eq.
  - by simplify_eq.
Qed.

Lemma performAll_cached P ops c j w c' w' :
  raw c = Some j -> performAll P ops c w = Returns (c', w') -> c' = c.
Proof.
  revert c w. induction ops as [|op ops IH]; intros c w Hraw; simpl; run.
  - intros H. by simplify_eq.
  - destruct (perform P op c w) as [[c0 w0]| |] eqn:Hop; [|done..].
    apply (perform_cached _ _ _ j) in Hop as ->; [|done]. by apply IH.
Qed.

Lemma inspectContainer_fills c w inspect c1 w1 :
  inspectContainer c w = Returns ((Ok inspect, c1), w1) -> raw c1 = Some inspect.
Proof.
  unfold inspectContainer. run. intros H.
  destruct (raw c) eqn:Hraw; simplify_eq/=; [done|].
  destruct (ContainerInspect _ _ _); by simplify_eq/=.
Qed.

(** C8: once an inspect has succeeded on a handle, with result
    [inspect], the handle keeps that result whatever is done with it
    afterwards ([ops], among them changes of the container behind the
    handle's back) and in whatever state the daemon is ([w2], [w4]):
    [GetPorts] and [GetIPAddress] answer from [inspect], without asking
    the daemon and without touching the handle. *)
Theorem inspect_cache_is_kept P c w inspect c1 w1 ops w2 c2 w3 w4 :
  inspectContainer c w = Returns ((Ok inspect, c1), w1) ->
  performAll P ops c1 w2 = Returns (c2, w3) ->
  raw c2 = Some inspect
  /\ GetPorts c2 w4
     = Returns ((Ok (container.ExposedPorts (types.Config inspect)), c2), w4)
  /\ GetIPAddress c2 w4
     = Returns ((types.IPAddress (types.NetworkSettings' inspect), None, c2), w4).
Proof.
  intros Hfirst Hops.
  apply inspectContainer_fills in Hfirst.
  apply (performAll_cached _ _ _ inspect) in Hops as ->; [|done].
  unfold GetPorts, GetIPAddress, inspectContainer. run. by rewrite Hfirst.
Qed.

Example fresh_handle_sees_the_move :
  GetIPAddress scenario.freshHandle scenario.later
  = Returns (("172.17.0.9", None, set_raw scenario.freshHandle scenario.movedJSON),
             {| rand_pos := 7;
                calls := [CallContainerInspect "ryuk"; CallExternal "network changed"] |}).
Proof. vm_compute. reflexivity. Qed.

Lemma inspect_cache_is_kept_witness :
  GetPorts scenario.inspected scenario.later
  = Returns ((Ok {[ "8080/tcp" ]}, scenario.inspected), scenario.later)
  /\ GetIPAddress scenario.inspected scenario.later
     = Returns (("172.17.0.2", None, scenario.inspected), scenario.later).
Proof.
  assert (H1 : inspectContainer scenario.freshHandle scenario.boot
               = Returns ((Ok scenario.sidecarJSON, scenario.inspected),
                          scenario.worldOf scenario.firstInspect))
    by (vm_compute; reflexivity).
  assert (H2 : performAll scenario.plainPorts scenario.busy scenario.inspected scenario.later
               = Returns (scenario.inspected,
                          scenario.worldOf
                            (performAll scenario.plainPorts scenario.busy
                               scenario.inspected scenario.later)))
    by (vm_compute; reflexivity).
  destruct (inspect_cache_is_kept _ _ _ _ _ _ _ _ _ _ scenario.later H1 H2)
    as (_ & Hports & Hip).
  split; [exact Hports|exact Hip].
Defined.

(** ** The mapped port *)

Lemma scanMappedPort_absent order port :
  Forall (fun kp => nat_.Port_Port kp.1 <> strconv.Itoa port) order ->
  scanMappedPort order port = None.
Proof.
  induction 1 as [|[k p] rest Hk _ IH]; simpl; [done|].
  destruct (String.eqb_spec (nat_.Port_Port k) (strconv.Itoa port)); [done|exact IH].
Qed.

Lemma scanMappedPort_first k p rest port :
  nat_.Port_Port k = strconv.Itoa port ->
  scanMappedPort ((k, p) :: rest) port = Some p.
Proof. intros H. simpl. rewrite H, String.eqb_refl. reflexivity. Qed.

(** C5 fails on the code: for a port that is exposed but not published,
    Docker's inspect lists the port with an empty binding list, and
    [GetMappedPort] indexes that list at 0: the call panics instead of
    returning ["0"].  [GetHostEndpoint] on the same handle checks the
    length and returns its not-found error. *)
Theorem GetMappedPort_unpublished_port_panics (w : World) :
  raw scenario.unpublishedHandle = Some scenario.unpublishedJSON
  /\ types.Ports (types.NetworkSettings' scenario.unpublishedJSON) !! "80/tcp" = Some []
  /\ RangeOf (types.Ports (types.NetworkSettings' scenario.unpublishedJSON)) [("80/tcp", [])]
  /\ GetMappedPort scenario.unpublishedHandle 80 [("80/tcp", [])] w
     = Panics "runtime error: index out of range"
  /\ GetHostEndpoint scenario.plainPorts scenario.unpublishedHandle "80" ["80/tcp"] w
     = Returns (("", Some (Errorf "port 80 not found"), scenario.unpublishedHandle), w)
  /\ GetMappedPort scenario.unpublishedHandle 81 [("80/tcp", [])] w
     = Returns (("0", None, scenario.unpublishedHandle), w).
Proof.
  split_and!; try reflexivity.
  unfold RangeOf. simpl. by rewrite map_to_list_singleton.
Qed.

(** ** The handshake with the sidecar *)

Lemma readUntil_ends s delim line rest :
  bufio.readUntil s delim = Some (line, rest) -> strings.ContainsByte line delim = true.
Proof.
  revert line. induction s as [|b s IH]; intros line; simpl; [done|].
  destruct (Ascii.eqb b delim) eqn:Hb.
  - intros H. simplify_eq. simpl. by rewrite Hb.
  - destruct (bufio.readUntil s delim) as [[l r]|]; [|done].
    intros H. simplify_eq. simpl. rewrite Hb. simpl. by apply IH.
Qed.

(** [ReadString] returns an error exactly when the data does not end in
    the delimiter, so a line read without error is never ["ACK"]. *)
Lemma ReadString_never_ACK sock resp sock' :
  bufio.ReadString newline sock = (resp, None, sock') -> String.eqb resp "ACK" = false.
Proof.
  unfold bufio.ReadString.
  destruct (bufio.readUntil _ _) as [[line rest]|] eqn:Hr; [|done].
  intros H. simplify_eq. apply readUntil_ends in Hr.
  destruct (String.eqb_spec resp "ACK") as [->|]; [done|reflexivity].
Qed.

Lemma handshake_unfold filters retryLimit sock :
  handshake filters (S retryLimit) sock
  = let sock1 := bufio.WriteString (strings.Join filters "&") sock in
    match bufio.Flush sock1 with
    | (Some _, sock2) => handshake filters retryLimit sock2
    | (None, sock2) =>
        match bufio.ReadString newline sock2 with
        | (_, Some _, sock3) => handshake filters retryLimit sock3
        | (resp, None, sock3) =>
            if String.eqb resp "ACK" then (true, sock3)
            else handshake filters retryLimit sock3
        end
    end.
Proof.
  simpl. destruct (bufio.Flush _) as [[e|] sock2]; [done|].
  destruct (bufio.ReadString _ _) as [[resp [e|]] sock3]; done.
Qed.

Lemma handshake_never_breaks filters retryLimit sock :
  (handshake filters retryLimit sock).1 = false.
Proof.
  revert sock. induction retryLimit as [|n IH]; intros sock; [done|].
  rewrite handshake_unfold. cbv zeta.
  destruct (bufio.Flush _) as [[e|] sock2]; [apply IH|].
  destruct (bufio.ReadString _ _) as [[resp [e|]] sock3] eqn:Hread; [apply IH|].
  apply ReadString_never_ACK in Hread as ->. apply IH.
Qed.

(** C2 fails on the code.  The line written is the label filter without
    a newline after it, and the line read still carries its newline when
    it is compared with ["ACK"]: no answer of the sidecar makes the
    handshake succeed.  To a sidecar that acknowledges every line with
    [ACK] and a newline the watcher sends the filter three times, never a
    newline, then warns and exits instead of waiting for the termination
    signal. *)
Theorem handshake_rejects_the_acknowledgement :
  (forall order conn,
      let g := watcher order conn in
      state g = Exited /\ stdout g = [zombieWarning])
  /\ RangeOf (GetLabels scenario.reaperS) scenario.labelOrder
  /\ strings.Join (labelFilters scenario.labelOrder) "&" = scenario.filterS
  /\ let g := watcher scenario.labelOrder scenario.acksThrice in
     state g = Exited
     /\ stdout g = [zombieWarning]
     /\ attempts (sock g) = 3
     /\ bufio.wire (sock g) = scenario.filterS +:+ scenario.filterS +:+ scenario.filterS
     /\ strings.ContainsByte (bufio.wire (sock g)) newline = false.
Proof.
  split_and!.
  - intros order conn. unfold watcher.
    pose proof (handshake_never_breaks (labelFilters order) 3 conn) as H.
    destruct (handshake _ _ _) as [[] s]; simpl in *; [done|by split].
  - apply RangeOf_two, TestcontainerLabel_ne.
  - reflexivity.
  - by vm_compute.
Qed.


Lemma attempts_Flush sock : attempts (bufio.Flush sock).2 = attempts sock.
Proof. unfold bufio.Flush. cases. Qed.

Lemma attempts_ReadString delim sock :
  attempts (bufio.ReadString delim sock).2 = attempts sock.
Proof. unfold bufio.ReadString. cases. Qed.








(** ** The sidecar *)

(** C3 fails on the code in one respect.  A successful [NewReaper] has
    run the sidecar through its provider, resolved port 8080 of the
    handle with [GetHostEndpoint] and stored the answer as [Endpoint];
    the request it submitted carries the session's labels and the bind
    mount of the Docker socket.  But the request exports no port at all:
    nothing asks the runtime to publish the control port. *)
Theorem NewReaper_request_exports_no_port P sid provider po w r w' :
  NewReaper P sid provider po w = Returns (Ok r, w') ->
  let request :=
    reaperRequest {| Provider := provider; SessionID := sid; Endpoint := "" |} in
  (exists c w1 c',
      iface.RunContainer provider request w = Returns ((Some c, None), w1)
      /\ GetHostEndpoint P c "8080" po w1 = Returns ((Endpoint r, None, c'), w'))
  /\ SessionID r = sid
  /\ req.Image request = ReaperDefaultImage
  /\ req.Labels request = GetLabels r
  /\ req.Mounts request
     = [ {| mount.Type' := mount.TypeBind;
            mount.Source := "/var/run/docker.sock";
            mount.Target := "/var/run/docker.sock";
            mount.ReadOnly := false |} ]
  /\ req.ExportedPort request = []
  /\ P (req.ExportedPort request) = P [].
Proof.
  intros H. pose proof (NewReaper_returns _ _ _ _ _ _ _ H) as [Hsid _].
  unfold NewReaper in H. run.
  destruct (iface.RunContainer provider _ w) as [[[c err] w1]| |] eqn:Hrun; [|done..].
  destruct err; simplify_eq/=.
  destruct c as [c|]; [|done].
  destruct (GetHostEndpoint P c "8080" po w1) as [[[[ep e] c'] w2]| |] eqn:Hep; [|done..].
  destruct e; simplify_eq/=.
  split_and!; try done.
  exists c, w1, c'. split; [done|]. by rewrite Hep, <- H.
Qed.

Lemma NewReaper_request_exports_no_port_witness :
  req.ExportedPort
    (reaperRequest {| Provider := scenario.sidecarUp; SessionID := "s"; Endpoint := "" |})
  = []
  /\ NewReaper scenario.plainPorts "s" scenario.sidecarUp ["8080/tcp"] scenario.boot
     = Returns (Ok {| Provider := scenario.sidecarUp; SessionID := "s";
                      Endpoint := "0.0.0.0:32768" |}, scenario.boot).
Proof.
  assert (H : NewReaper scenario.plainPorts "s" scenario.sidecarUp ["8080/tcp"] scenario.boot
              = Returns (Ok {| Provider := scenario.sidecarUp; SessionID := "s";
                               Endpoint := "0.0.0.0:32768" |}, scenario.boot))
    by (vm_compute; reflexivity).
  destruct (NewReaper_request_exports_no_port _ _ _ _ _ _ _ H)
    as (_ & _ & _ & _ & _ & Hports & _).
  split; [exact Hports|exact H].
Defined.

(** * Further properties of the code *)

(** ** Labels and the filter line *)

Lemma GetLabels_entries r :
  map_to_list (GetLabels r)
  ≡ₚ [(TestcontainerLabel, "true"); (TestcontainerLabelSessionID, SessionID r)].
Proof.
  unfold GetLabels.
  rewrite map_to_list_insert
    by (rewrite lookup_singleton_ne; [done|]; intros ?; by apply TestcontainerLabel_ne).
  by rewrite map_to_list_singleton.
Qed.

(** X1: the labels of a reaper are the marker set to ["true"] and the
    session identifier under the session key, two entries in all; two
    reapers have the same labels exactly when they guard the same
    session. *)
Theorem GetLabels_session_decides (r1 r2 : Reaper) :
  (GetLabels r1 = GetLabels r2 <-> SessionID r1 = SessionID r2)
  /\ size (GetLabels r1) = 2
  /\ map_to_list (GetLabels r1)
     ≡ₚ [(TestcontainerLabel, "true"); (TestcontainerLabelSessionID, SessionID r1)].
Proof.
  split_and!.
  - split; intros H.
    + pose proof (GetLabels_session r1) as H1. rewrite H, GetLabels_session in H1.
      congruence.
    + unfold GetLabels. by rewrite H.
  - unfold GetLabels.
    rewrite map_size_insert_None
      by (rewrite lookup_singleton_ne; [done|]; intros ?; by apply TestcontainerLabel_ne).
    by rewrite map_size_singleton.
  - apply GetLabels_entries.
Qed.

Lemma labelFilters_clauses order : labelFilters order = clause <$> order.
Proof.
  unfold labelFilters.
  enough (H : forall acc : list string,
             fold_left (fun filters '(l, v) =>
                          (filters ++ ["label=" +:+ l +:+ "=" +:+ v])%list) order acc
             = (acc ++ (clause <$> order))%list)
    by apply (H []).
  induction order as [|[l v] rest IH]; intros acc; simpl.
  - by rewrite app_nil_r.
  - rewrite IH, <- app_assoc. reflexivity.
Qed.

(** X2: whatever order the loop visits the labels in, the filter line
    of the watcher consists of two clauses joined by [&], one for the
    marker and one for the session, in one order or the other; its
    clauses are those of the labels that [CreateContainer] attaches. *)
Theorem filter_line_has_two_clauses (r : Reaper) (order : list (string * string))
    (req : ContainerRequest) (env : list string) (exposedPortSet : PortSet) :
  RangeOf (GetLabels r) order ->
  let marker := "label=org.testcontainers.golang=true" in
  let session := "label=org.testcontainers.golang.sessionId=" +:+ SessionID r in
  (strings.Join (labelFilters order) "&" = marker +:+ "&" +:+ session
   \/ strings.Join (labelFilters order) "&" = session +:+ "&" +:+ marker)
  /\ labelFilters order
     ≡ₚ clause <$> map_to_list (container.Labels (dockerInput req env exposedPortSet r)).
Proof.
  unfold RangeOf. intros Hrange. simpl. rewrite labelFilters_clauses. split.
  - rewrite GetLabels_entries in Hrange. symmetry in Hrange.
    apply Permutation_length_2_inv in Hrange as [->| ->]; [left|right]; reflexivity.
  - by apply fmap_Permutation.
Qed.

Lemma filter_line_has_two_clauses_witness :
  strings.Join (labelFilters scenario.labelOrder) "&" = scenario.filterS.
Proof.
  destruct (filter_line_has_two_clauses scenario.reaperS scenario.labelOrder
              scenario.alpine [] ∅) as [[H|H] _].
  - apply RangeOf_two, TestcontainerLabel_ne.
  - exact H.
  - vm_compute in H. discriminate H.
Defined.

(** ** The watcher and its connection *)






Lemma flushes_Flush sock : flushes (bufio.Flush sock).2 = S (flushes sock).
Proof. unfold bufio.Flush. cases. Qed.

Lemma reads_Flush sock : reads (bufio.Flush sock).2 = reads sock.
Proof. unfold bufio.Flush. cases. Qed.

Lemma flushes_ReadString delim sock :
  flushes (bufio.ReadString delim sock).2 = flushes sock.
Proof. unfold bufio.ReadString. cases. Qed.

Lemma reads_ReadString delim sock :
  reads (bufio.ReadString delim sock).2 = S (reads sock).
Proof. unfold bufio.ReadString. cases. Qed.

(** X4: every attempt of the handshake flushes exactly once and reads at
    most once (never after a failed flush): counted on the connection,
    the flushes of a handshake are as many as its attempts, and its reads
    are not more. *)
Theorem handshake_flushes_and_reads (filters : list string) (retryLimit : nat)
    (sock0 : bufio.Conn) :
  let sock1 := (handshake filters retryLimit sock0).2 in
  flushes sock1 + attempts sock0 = flushes sock0 + attempts sock1
  /\ reads sock1 + attempts sock0 <= reads sock0 + attempts sock1
  /\ attempts sock1 <= attempts sock0 + retryLimit.
Proof.
  revert sock0. induction retryLimit as [|n IH]; intros sock0; [simpl; lia|].
  rewrite handshake_unfold. cbv zeta.
  set (sockw := bufio.WriteString (strings.Join filters "&") sock0).
  assert (Hw : attempts sockw = S (attempts sock0)
               /\ flushes sockw = flushes sock0 /\ reads sockw = reads sock0) by done.
  pose proof (attempts_Flush sockw) as Hfa.
  pose proof (flushes_Flush sockw) as Hff.
  pose proof (reads_Flush sockw) as Hfr.
  destruct (bufio.Flush sockw) as [[e|] sock2]; simpl in Hfa, Hff, Hfr.
  { specialize (IH sock2). simpl in IH. lia. }
  pose proof (attempts_ReadString newline sock2) as Hra.
  pose proof (flushes_ReadString newline sock2) as Hrf.
  pose proof (reads_ReadString newline sock2) as Hrr.
  destruct (bufio.ReadString newline sock2) as [[resp [e|]] sock3]; simpl in Hra, Hrf, Hrr.
  { specialize (IH sock3). simpl in IH. lia. }
  destruct (String.eqb resp "ACK").
  - simpl. lia.
  - specialize (IH sock3). simpl in IH. lia.
Qed.

Lemma append_assoc (s1 s2 s3 : string) : (s1 +:+ s2) +:+ s3 = s1 +:+ (s2 +:+ s3).
Proof.
  induction s1 as [|a s1 IH]; [done|].
  change (String a ((s1 +:+ s2) +:+ s3) = String a (s1 +:+ (s2 +:+ s3))).
  by rewrite IH.
Qed.

Lemma append_nil_r (s : string) : s +:+ "" = s.
Proof.
  induction s as [|a s IH]; [done|].
  change (String a (s +:+ "") = String a s). by rewrite IH.
Qed.

(** X5: on a connection whose writer is empty and sound, all that a
    handshake sends to the sidecar is the filter line, whole, as many
    times as flushes went through, at most once per attempt, with
    nothing between two copies. *)
Theorem handshake_sends_copies_of_filter (filters : list string) (retryLimit : nat)
    (sock0 : bufio.Conn) :
  bufio.wbuf sock0 = "" ->
  bufio.werr sock0 = None ->
  exists k, k <= retryLimit
            /\ bufio.wire (handshake filters retryLimit sock0).2
               = bufio.wire sock0 +:+ copies k (strings.Join filters "&").
Proof.
  intros Hbuf Herr.
  assert (Hinv : bufio.werr sock0 = None -> bufio.wbuf sock0 = "") by done.
  clear Hbuf Herr. revert sock0 Hinv.
  induction retryLimit as [|n IH]; intros sock0 Hinv.
  { exists 0. split; [lia|]. simpl. by rewrite append_nil_r. }
  rewrite handshake_unfold. cbv zeta.
  set (line := strings.Join filters "&").
  assert (Hread : forall s, (bufio.werr s = None -> bufio.wbuf s = "") ->
            let s' := (bufio.ReadString newline s).2 in
            (bufio.werr s' = None -> bufio.wbuf s' = "") /\ bufio.wire s' = bufio.wire s).
  { intros s Hs. unfold bufio.ReadString. cases. }
  destruct (bufio.werr sock0) as [e0|] eqn:Hwerr.
  - (* the writer already failed: nothing is accepted, nothing flushed *)
    unfold bufio.Flush, bufio.WriteString. simpl. rewrite Hwerr.
    match goal with |- context [handshake filters n ?s] =>
      destruct (IH s) as (k & Hk & ->); [by simpl|] end.
    exists k. split; [lia|done].
  - specialize (Hinv eq_refl).
    unfold bufio.Flush, bufio.WriteString. simpl. rewrite Hwerr, Hinv.
    change ("" +:+ line) with line.
    destruct (String.eqb line "") eqn:Hline.
    + (* an empty line: the flush has nothing to write *)
      apply String.eqb_eq in Hline.
      match goal with |- context [bufio.ReadString newline ?s] =>
        destruct (Hread s) as [Hi Hw]; [done|];
        destruct (bufio.ReadString newline s) as [[resp [e|]] sock3] end;
        simpl in Hi, Hw.
      * destruct (IH sock3 Hi) as (k & Hk & ->). exists k. split; [lia|]. by rewrite Hw.
      * destruct (String.eqb resp "ACK").
        -- exists 0. split; [lia|]. simpl. by rewrite Hw, append_nil_r.
        -- destruct (IH sock3 Hi) as (k & Hk & ->). exists k. split; [lia|]. by rewrite Hw.
    + destruct (bufio.writes sock0) as [|[] later] eqn:Hwrites.
      * match goal with |- context [bufio.ReadString newline ?s] =>
          destruct (Hread s) as [Hi Hw]; [done|];
          destruct (bufio.ReadString newline s) as [[resp [e|]] sock3] end;
          simpl in Hi, Hw.
        -- destruct (IH sock3 Hi) as (k & Hk & ->). exists (S k). split; [lia|].
           rewrite Hw. simpl. by rewrite append_assoc.
        -- destruct (String.eqb resp "ACK").
           ++ exists 1. split; [lia|]. simpl. by rewrite Hw, append_nil_r.
           ++ destruct (IH sock3 Hi) as (k & Hk & ->). exists (S k). split; [lia|].
              rewrite Hw. simpl. by rewrite append_assoc.
      * match goal with |- context [bufio.ReadString newline ?s] =>
          destruct (Hread s) as [Hi Hw]; [done|];
          destruct (bufio.ReadString newline s) as [[resp [e|]] sock3] end;
          simpl in Hi, Hw.
        -- destruct (IH sock3 Hi) as (k & Hk & ->). exists (S k). split; [lia|].
           rewrite Hw. simpl. by rewrite append_assoc.
        -- destruct (String.eqb resp "ACK").
           ++ exists 1. split; [lia|]. simpl. by rewrite Hw, append_nil_r.
           ++ destruct (IH sock3 Hi) as (k & Hk & ->). exists (S k). split; [lia|].
              rewrite Hw. simpl. by rewrite append_assoc.
      * match goal with |- context [handshake filters n ?s] =>
          destruct (IH s) as (k & Hk & ->); [done|] end.
        exists k. split; [lia|done].
Qed.

Lemma handshake_sends_copies_of_filter_witness :
  exists k, k <= 3
            /\ bufio.wire (handshake (labelFilters scenario.labelOrder) 3 scenario.acksThrice).2
               = bufio.wire scenario.acksThrice
                 +:+ copies k (strings.Join (labelFilters scenario.labelOrder) "&").
Proof.
  exact (handshake_sends_copies_of_filter (labelFilters scenario.labelOrder) 3
           scenario.acksThrice eq_refl eq_refl).
Defined.

(** ** Looking up ports *)

Lemma RangeOf_elem {V} (m : gmap string V) order k v :
  RangeOf m order -> (k, v) ∈ order <-> m !! k = Some v.
Proof. unfold RangeOf. intros ->. apply elem_of_map_to_list. Qed.

Lemma scanMappedPort_single order port p :
  (exists k, (k, p) ∈ order /\ nat_.Port_Port k = strconv.Itoa port) ->
  (forall k' p', (k', p') ∈ order -> nat_.Port_Port k' = strconv.Itoa port -> p' = p) ->
  scanMappedPort order port = Some p.
Proof.
  induction order as [|[k0 p0] rest IH]; intros (k & Hin & Hk) Huniq.
  { by apply elem_of_nil in Hin. }
  simpl. destruct (String.eqb_spec (nat_.Port_Port k0) (strconv.Itoa port)) as [H0|H0].
  - f_equal. apply (Huniq k0); [left|done].
  - apply IH.
    + exists k. split; [|done]. apply elem_of_cons in Hin as [Heq|Hin]; [|done].
      simplify_eq.
    + intros k' p' Hin'. apply Huniq. by right.
Qed.

Lemma GetMappedPort_scan c port order w j c' w' :
  inspectContainer c w = Returns ((Ok j, c'), w') ->
  GetMappedPort c port order w
  = match scanMappedPort order port with
    | Some (b :: _) => Returns ((nat_.HostPort b, None, c'), w')
    | Some [] => Panics "runtime error: index out of range"
    | None => Returns (("0", None, c'), w')
    end.
Proof. intros H. unfold GetMappedPort. run. rewrite H. cases. Qed.

(** X6: when no entry of the inspected port map has the port number
    asked for, [GetMappedPort] returns ["0"] and no error, in whatever
    order the loop visits the map. *)
Theorem GetMappedPort_no_entry_gives_zero c port order w j c' w' :
  inspectContainer c w = Returns ((Ok j, c'), w') ->
  RangeOf (types.Ports (types.NetworkSettings' j)) order ->
  (forall k, is_Some (types.Ports (types.NetworkSettings' j) !! k) ->
             nat_.Port_Port k <> strconv.Itoa port) ->
  GetMappedPort c port order w = Returns (("0", None, c'), w').
Proof.
  intros Hinspect Hrange Hnone.
  rewrite (GetMappedPort_scan _ _ _ _ _ _ _ Hinspect), scanMappedPort_absent; [done|].
  apply Forall_forall. intros [k p] Hin. simpl.
  apply Hnone. exists p. by apply (RangeOf_elem _ _ _ _ Hrange).
Qed.

Lemma GetMappedPort_no_entry_gives_zero_witness :
  GetMappedPort scenario.unpublishedHandle 8080 [("80/tcp", [])] scenario.boot
  = Returns (("0", None, scenario.unpublishedHandle), scenario.boot).
Proof.
  apply (GetMappedPort_no_entry_gives_zero _ _ _ _ scenario.unpublishedJSON).
  - reflexivity.
  - unfold RangeOf. simpl. by rewrite map_to_list_singleton.
  - intros k [p Hk]. simpl in Hk.
    apply lookup_singleton_Some in Hk as [<- _]. by vm_compute.
Defined.

(** X7: when exactly one entry of the inspected port map has the port
    number asked for, the answer of [GetMappedPort] does not depend on
    the order of the visit: it is the host port of the first binding of
    that entry, and a panic when the entry has no binding. *)
Theorem GetMappedPort_single_entry c port order w j c' w' k p :
  inspectContainer c w = Returns ((Ok j, c'), w') ->
  RangeOf (types.Ports (types.NetworkSettings' j)) order ->
  types.Ports (types.NetworkSettings' j) !! k = Some p ->
  nat_.Port_Port k = strconv.Itoa port ->
  (forall k', is_Some (types.Ports (types.NetworkSettings' j) !! k') ->
              nat_.Port_Port k' = strconv.Itoa port -> k' = k) ->
  GetMappedPort c port order w
  = match p with
    | b :: _ => Returns ((nat_.HostPort b, None, c'), w')
    | [] => Panics "runtime error: index out of range"
    end.
Proof.
  intros Hinspect Hrange Hk Hport Huniq.
  rewrite (GetMappedPort_scan _ _ _ _ _ _ _ Hinspect).
  rewrite (scanMappedPort_single order port p); [by destruct p| |].
  - exists k. split; [|done]. by apply (RangeOf_elem _ _ _ _ Hrange).
  - intros k' p' Hin Hport'.
    apply (RangeOf_elem _ _ _ _ Hrange) in Hin.
    assert (Hkk : k' = k) by (apply Huniq; [by exists p'|done]).
    subst k'. unfold nat_.Port in *. rewrite Hk in Hin. by injection Hin.
Qed.

Lemma GetMappedPort_single_entry_witness :
  GetMappedPort scenario.sidecarHandle 8080
    [("8080/tcp", [ {| nat_.HostIP := "0.0.0.0"; nat_.HostPort := "32768" |} ])]
    scenario.boot
  = Returns (("32768", None, scenario.sidecarHandle), scenario.boot).
Proof.
  apply (GetMappedPort_single_entry _ _ _ _ scenario.sidecarJSON _ _ "8080/tcp"
           [ {| nat_.HostIP := "0.0.0.0"; nat_.HostPort := "32768" |} ]).
  - reflexivity.
  - unfold RangeOf. simpl. by rewrite map_to_list_singleton.
  - reflexivity.
  - reflexivity.
  - intros k' [p Hk]. simpl in Hk.
    by apply lookup_singleton_Some in Hk as [<- _].
Defined.

(** X8: [GetMappedPort] compares port numbers only, not protocols.  For
    a container that publishes the same port number under two keys, both
    visits of the port map are possible, and the answer is the host port
    of whichever key the loop meets first. *)
Theorem GetMappedPort_ignores_protocol c port w j k1 k2 b1 bs1 b2 bs2 :
  raw c = Some j ->
  types.Ports (types.NetworkSettings' j) = {[ k1 := b1 :: bs1; k2 := b2 :: bs2 ]} ->
  k1 <> k2 ->
  nat_.Port_Port k1 = strconv.Itoa port ->
  nat_.Port_Port k2 = strconv.Itoa port ->
  RangeOf (types.Ports (types.NetworkSettings' j)) [(k1, b1 :: bs1); (k2, b2 :: bs2)]
  /\ RangeOf (types.Ports (types.NetworkSettings' j)) [(k2, b2 :: bs2); (k1, b1 :: bs1)]
  /\ GetMappedPort c port [(k1, b1 :: bs1); (k2, b2 :: bs2)] w
     = Returns ((nat_.HostPort b1, None, c), w)
  /\ GetMappedPort c port [(k2, b2 :: bs2); (k1, b1 :: bs1)] w
     = Returns ((nat_.HostPort b2, None, c), w).
Proof.
  intros Hraw Hports Hne H1 H2.
  assert (Hinspect : inspectContainer c w = Returns ((Ok j, c), w)).
  { unfold inspectContainer. by rewrite Hraw. }
  assert (Hlist : map_to_list (types.Ports (types.NetworkSettings' j))
                  ≡ₚ [(k1, b1 :: bs1); (k2, b2 :: bs2)]).
  { rewrite Hports.
    rewrite map_to_list_insert by by rewrite lookup_singleton_ne.
    by rewrite map_to_list_singleton. }
  unfold RangeOf. split_and!.
  - by rewrite Hlist.
  - rewrite Hlist. apply perm_swap.
  - rewrite (GetMappedPort_scan _ _ _ _ _ _ _ Hinspect).
    by rewrite (scanMappedPort_first k1).
  - rewrite (GetMappedPort_scan _ _ _ _ _ _ _ Hinspect).
    by rewrite (scanMappedPort_first k2).
Qed.

Lemma GetMappedPort_ignores_protocol_witness :
  GetMappedPort scenario.twoProtocolsHandle 80
    [("80/tcp", [scenario.tcp80]); ("80/udp", [scenario.udp80])] scenario.boot
  = Returns (("32770", None, scenario.twoProtocolsHandle), scenario.boot)
  /\ GetMappedPort scenario.twoProtocolsHandle 80
       [("80/udp", [scenario.udp80]); ("80/tcp", [scenario.tcp80])] scenario.boot
     = Returns (("32771", None, scenario.twoProtocolsHandle), scenario.boot).
Proof.
  destruct (GetMappedPort_ignores_protocol scenario.twoProtocolsHandle 80 scenario.boot
              scenario.twoProtocolsJSON "80/tcp" "80/udp" scenario.tcp80 [] scenario.udp80 []
              eq_refl eq_refl)
    as (_ & _ & Htcp & Hudp); [done|reflexivity|reflexivity|].
  split; [exact Htcp|exact Hudp].
Defined.

Lemma inspectContainer_returns c w :
  exists r c' w', inspectContainer c w = Returns ((r, c'), w')
                  /\ match r with
                     | Ok j => raw c' = Some j
                     | Err e => c' = c /\ raw c = None
                                /\ ContainerInspect (client (provider c)) (calls w) (ID c) = Err e
                     end.
Proof.
  unfold inspectContainer. run.
  destruct (raw c) eqn:Hraw; [by eexists _, _, _|].
  destruct (ContainerInspect _ _ _) eqn:Hi; by eexists _, _, _.
Qed.

Lemma GetHostEndpoint_returns P c port po w :
  exists x w', GetHostEndpoint P c port po w = Returns (x, w').
Proof.
  unfold GetHostEndpoint. run.
  destruct (inspectContainer_returns c w) as (r & c' & w' & -> & _).
  cases; by eexists _, _.
Qed.

(** X9: [GetHostEndpoint] always returns.  With a nil error the
    endpoint is [HostIP:HostPort] of the first binding, in the inspected
    port map, of the port the loop visited first; with an error the
    endpoint is empty, and the error is the one of the inspect, the one
    of [ParsePortSpecs], or "port ... not found". *)
Theorem GetHostEndpoint_outcome P c port po w :
  exists ep err c' w',
    GetHostEndpoint P c port po w = Returns ((ep, err, c'), w')
    /\ match err with
       | None =>
           exists j p rest b bs,
             raw c' = Some j /\ po = p :: rest
             /\ types.Ports (types.NetworkSettings' j) !! p = Some (b :: bs)
             /\ ep = nat_.HostIP b +:+ ":" +:+ nat_.HostPort b
       | Some e =>
           ep = ""
           /\ (e = Errorf ("port " +:+ port +:+ " not found")
               \/ P [port] = Err e
               \/ ContainerInspect (client (provider c)) (calls w) (ID c) = Err e)
       end.
Proof.
  unfold GetHostEndpoint. run.
  destruct (inspectContainer_returns c w) as (r & c' & w' & -> & Hr).
  destruct r as [j|e];
    [|destruct Hr as (_ & _ & He); eexists _, _, _, _;
      (split; [reflexivity|]); simpl; by eauto].
  destruct (P [port]) as [x|e] eqn:HP;
    [|eexists _, _, _, _; (split; [reflexivity|]); simpl; by eauto].
  destruct po as [|p rest];
    [eexists _, _, _, _; (split; [reflexivity|]); simpl; by eauto|].
  destruct (types.Ports (types.NetworkSettings' j) !! p) as [[|b bs]|] eqn:Hp;
    eexists _, _, _, _; (split; [reflexivity|]); simpl; by eauto 10.
Qed.

(** X10: a failed inspect is passed on unchanged by all four lookups,
    each with its zero value, and is not remembered: the handle comes
    back as it was, so the next lookup asks the daemon again. *)
Theorem lookups_pass_on_inspect_error P c w e port order hostPort po :
  raw c = None ->
  ContainerInspect (client (provider c)) (calls w) (ID c) = Err e ->
  let w' := {| rand_pos := rand_pos w; calls := CallContainerInspect (ID c) :: calls w |} in
  GetPorts c w = Returns ((Err e, c), w')
  /\ GetIPAddress c w = Returns (("", Some e, c), w')
  /\ GetMappedPort c port order w = Returns (("", Some e, c), w')
  /\ GetHostEndpoint P c hostPort po w = Returns (("", Some e, c), w').
Proof.
  intros Hraw Herr.
  unfold GetPorts, GetIPAddress, GetMappedPort, GetHostEndpoint, inspectContainer. run.
  rewrite Hraw, Herr. done.
Qed.

Lemma lookups_pass_on_inspect_error_witness :
  GetIPAddress scenario.goneHandle scenario.boot
  = Returns (("", Some (ClientError true "No such container: gone"), scenario.goneHandle),
             {| rand_pos := 0; calls := [CallContainerInspect "gone"] |}).
Proof.
  destruct (lookups_pass_on_inspect_error scenario.plainPorts scenario.goneHandle
              scenario.boot (ClientError true "No such container: gone") 80 [] "80" []
              eq_refl eq_refl) as (_ & H & _).
  exact H.
Defined.

(** ** What a handle asks of the daemon *)

Lemma inspectContainer_cached c j w :
  raw c = Some j -> inspectContainer c w = Returns ((Ok j, c), w).
Proof. intros H. unfold inspectContainer. by rewrite H. Qed.

Lemma WaitUntilReady_cached ws c j w err c' w' :
  raw c = Some j ->
  WaitUntilReady ws c w = Returns ((err, c'), w') ->
  c' = c /\ inspects (calls w') = inspects (calls w).
Proof.
  intros Hraw. revert w. induction ws as [e|k IH|k IH|what k IH]; intros w; simpl; run.
  - intros H. by simplify_eq.
  - unfold GetIPAddress. run. rewrite (inspectContainer_cached c j w Hraw). apply IH.
  - unfold LivenessCheckPorts, GetPorts. run.
    rewrite (inspectContainer_cached c j w Hraw). apply IH.
  - intros H. apply IH in H as [-> ->]. done.
Qed.

Lemma perform_cached_quiet P op c j w c' w' :
  raw c = Some j ->
  perform P op c w = Returns (c', w') ->
  c' = c /\ inspects (calls w') = inspects (calls w).
Proof.
  intros Hraw. destruct op; simpl;
    unfold LivenessCheckPorts, GetPorts, GetIPAddress, GetMappedPort, GetHostEndpoint,
           Start, Terminate;
    run; rewrite ?(inspectContainer_cached c j w Hraw); intros H.
  - by simplify_eq.
  - by simplify_eq.
  - by simplify_eq.
  - cases.
  - cases.
  - destruct (ContainerStart _ _ _); simplify_eq/=; [done|].
    destruct (WaitingFor c) as [ws|]; simplify_eq/=; [|done].
    destruct (WaitUntilReady ws c _) as [[[e c0] w0]| |] eqn:Hw; simplify_eq/=.
    by apply (WaitUntilReady_cached _ _ j) in Hw as [-> ->].
  - by simplify_eq.
  - by simplify_eq.
Qed.

(** X11: once a handle holds an inspect result, nothing done with the
    handle makes it ask the daemon for an inspect again: over any
    sequence of lookups, starts and terminations the number of inspect
    calls in the daemon's history stays the same. *)
Theorem cached_handle_never_inspects P ops c j w c' w' :
  raw c = Some j ->
  performAll P ops c w = Returns (c', w') ->
  inspects (calls w') = inspects (calls w).
Proof.
  intros Hraw. revert w. induction ops as [|op ops IH]; intros w; simpl; run.
  - intros H. by simplify_eq.
  - destruct (perform P op c w) as [[c0 w0]| |] eqn:Hop; [|done..].
    apply (perform_cached_quiet _ _ _ j) in Hop as [-> <-]; [|done]. apply IH.
Qed.

Lemma cached_handle_never_inspects_witness :
  inspects (calls (scenario.worldOf
                     (performAll scenario.plainPorts scenario.busy scenario.inspected
                        scenario.later)))
  = 0.
Proof.
  assert (H : performAll scenario.plainPorts scenario.busy scenario.inspected scenario.later
              = Returns (scenario.inspected,
                         scenario.worldOf
                           (performAll scenario.plainPorts scenario.busy
                              scenario.inspected scenario.later)))
    by (vm_compute; reflexivity).
  assert (Hraw : raw scenario.inspected = Some scenario.sidecarJSON)
    by (vm_compute; reflexivity).
  rewrite (cached_handle_never_inspects _ _ _ _ _ _ _ Hraw H).
  reflexivity.
Defined.

Lemma grows_refl ok w : grows ok w w.
Proof. split; [done|]. exists []. by split. Qed.

Lemma grows_trans ok w1 w2 w3 : grows ok w1 w2 -> grows ok w2 w3 -> grows ok w1 w3.
Proof.
  intros (Hp & m & Hm & Hf) (Hp' & m' & Hm' & Hf'). split; [congruence|].
  exists (m' ++ m)%list. split; [by rewrite Hm', Hm, app_assoc|].
  by apply Forall_app.
Qed.

Lemma grows_call ok w what :
  ok what = true -> grows ok w {| rand_pos := rand_pos w; calls := what :: calls w |}.
Proof. intros H. split; [done|]. exists [what]. split; [done|]. by repeat constructor. Qed.

Lemma inspectContainer_traffic c w r c' w' :
  inspectContainer c w = Returns ((r, c'), w') -> grows (startTraffic (ID c)) w w'.
Proof.
  unfold inspectContainer. run. intros H.
  destruct (raw c); simplify_eq/=; [apply grows_refl|].
  destruct (ContainerInspect _ _ _); simplify_eq/=;
    apply grows_call; simpl; apply String.eqb_refl.
Qed.

Lemma WaitUntilReady_traffic ws c w err c' w' :
  WaitUntilReady ws c w = Returns ((err, c'), w') -> grows (startTraffic (ID c)) w w'.
Proof.
  revert c w. induction ws as [e|k IH|k IH|what k IH]; intros c w; simpl; run.
  - intros H. simplify_eq. apply grows_refl.
  - unfold GetIPAddress. run.
    destruct (inspectContainer c w) as [[[r c0] w0]| |] eqn:Hi; [|done..].
    pose proof (inspectContainer_traffic _ _ _ _ _ Hi) as Hg.
    apply inspectContainer_leaves in Hi as [Hc%evolves_ID _].
    destruct r; simpl; intros H%IH; rewrite Hc in H; eauto using grows_trans.
  - unfold LivenessCheckPorts, GetPorts. run.
    destruct (inspectContainer c w) as [[[r c0] w0]| |] eqn:Hi; [|done..].
    pose proof (inspectContainer_traffic _ _ _ _ _ Hi) as Hg.
    apply inspectContainer_leaves in Hi as [Hc%evolves_ID _].
    destruct r; simpl; intros H%IH; rewrite Hc in H; eauto using grows_trans.
  - intros H%IH. eapply grows_trans; [|exact H]. by apply grows_call.
Qed.

(** X12: [Start] first asks the daemon to start the container.  If that
    fails, it returns the daemon's error and asks nothing more.  Whatever
    follows the start call in the daemon's history are inspects of this
    same container and probes of the readiness strategy: [Start] never
    creates, pulls or removes.  The handle can only gain an inspect
    result. *)
Theorem Start_asks_to_start_first c w err c' w' :
  Start c w = Returns ((err, c'), w') ->
  exists more,
    calls w' = (more ++ CallContainerStart (ID c) :: calls w)%list
    /\ Forall (fun e => startTraffic (ID c) e = true) more
    /\ rand_pos w' = rand_pos w
    /\ evolves c c'
    /\ (ContainerStart (client (provider c)) (calls w) (ID c) = None
        \/ (more = [] /\ c' = c
            /\ err = ContainerStart (client (provider c)) (calls w) (ID c))).
Proof.
  intros H. pose proof (Start_leaves _ _ _ _ _ H) as [Hev _].
  unfold Start in H. run.
  destruct (ContainerStart _ _ _) as [e|] eqn:Hstart; simplify_eq/=.
  { exists []. split_and!; try done. by right. }
  destruct (WaitingFor c) as [ws|]; simplify_eq/=.
  - apply WaitUntilReady_traffic in H as (Hpos & more & Hcalls & Hall).
    exists more. split_and!; try done. by left.
  - exists []. split_and!; try done. by left.
Qed.

Lemma Start_asks_to_start_first_witness :
  exists more,
    calls (scenario.worldOf (Start scenario.waitingHandle scenario.boot))
    = (more ++ [CallContainerStart "web"])%list
    /\ Forall (fun e => startTraffic "web" e = true) more.
Proof.
  assert (H : Start scenario.waitingHandle scenario.boot
              = Returns ((None, scenario.startedHandle
                                  (Start scenario.waitingHandle scenario.boot)),
                         scenario.worldOf (Start scenario.waitingHandle scenario.boot)))
    by (vm_compute; reflexivity).
  destruct (Start_asks_to_start_first _ _ _ _ _ H) as (more & Hcalls & Hall & _).
  exists more. split; [exact Hcalls|exact Hall].
Defined.

Example Start_waitingHandle_calls :
  calls (scenario.worldOf (Start scenario.waitingHandle scenario.boot))
  = [CallProbe "tcp"; CallContainerInspect "web"; CallContainerStart "web"].
Proof. vm_compute. reflexivity. Qed.

Lemma perform_evolves P op c w c' w' :
  perform P op c w = Returns (c', w') -> evolves c c'.
Proof.
  destruct op; simpl; run; intros H.
  - destruct (GetPorts c w) as [[[r c0] w0]| |] eqn:Hg; simplify_eq/=.
    by apply GetPorts_leaves in Hg as [Hc _].
  - unfold LivenessCheckPorts in H.
    destruct (GetPorts c w) as [[[r c0] w0]| |] eqn:Hg; simplify_eq/=.
    by apply GetPorts_leaves in Hg as [Hc _].
  - destruct (GetIPAddress c w) as [[[[ip e] c0] w0]| |] eqn:Hg; simplify_eq/=.
    by apply GetIPAddress_leaves in Hg as [Hc _].
  - destruct (GetMappedPort c port order w) as [[[[hp e] c0] w0]| |] eqn:Hg; simplify_eq/=.
    by apply GetMappedPort_leaves in Hg as [Hc _].
  - destruct (GetHostEndpoint P c port portOrder w) as [[[[ep e] c0] w0]| |] eqn:Hg;
      simplify_eq/=.
    by apply GetHostEndpoint_leaves in Hg as [Hc _].
  - destruct (Start c w) as [[[e c0] w0]| |] eqn:Hg; simplify_eq/=.
    by apply Start_leaves in Hg as [Hc _].
  - unfold Terminate in H. run. simplify_eq. apply evolves_refl.
  - simplify_eq. apply evolves_refl.
Qed.

(** X13: nothing done with a handle changes which container it stands
    for: over any sequence of lookups, starts and terminations its [ID],
    session identifier, provider and readiness strategy stay the same;
    only the inspect cache can change, from empty to filled. *)
Theorem handle_identity_is_kept P ops c w c' w' :
  performAll P ops c w = Returns (c', w') ->
  ID c' = ID c /\ sessionID c' = sessionID c /\ provider c' = provider c
  /\ WaitingFor c' = WaitingFor c /\ evolves c c'.
Proof.
  intros H.
  enough (Hev : evolves c c').
  { split_and!; [..|done]; by destruct Hev as [->|(j & _ & ->)]. }
  revert c w H. induction ops as [|op ops IH]; intros c w; simpl; run.
  - intros H. simplify_eq. apply evolves_refl.
  - destruct (perform P op c w) as [[c0 w0]| |] eqn:Hop; [|done..].
    apply perform_evolves in Hop. intros H%IH. eauto using evolves_trans.
Qed.

Lemma handle_identity_is_kept_witness :
  exists c' w',
    performAll scenario.plainPorts scenario.busy scenario.freshHandle scenario.boot
    = Returns (c', w') /\ ID c' = "ryuk" /\ raw c' = Some scenario.movedJSON.
Proof.
  eexists _, _. split; [vm_compute; reflexivity|].
  match goal with |- ID ?c' = _ /\ _ =>
    destruct (handle_identity_is_kept scenario.plainPorts scenario.busy scenario.freshHandle
                scenario.boot c' _ eq_refl) as (Hid & _)
  end.
  split; [exact Hid|reflexivity].
Defined.

(** ** Running a container *)

(** X14: what [RunContainer] can return.  A nil handle comes with the
    error of [CreateContainer], unwrapped, and then nothing was started;
    a handle comes with no error when [Start] succeeded and with the
    wrapped error of [Start] otherwise.  A nil handle with a nil error
    is never returned. *)
Theorem RunContainer_outcomes (create : M (result DockerContainer)) w oc oerr w' :
  RunContainer_body create w = Returns ((oc, oerr), w') ->
  match oc with
  | None => exists e, oerr = Some e /\ create w = Returns (Err e, w')
  | Some c' =>
      exists c w1 serr,
        create w = Returns (Ok c, w1)
        /\ Start c w1 = Returns ((serr, c'), w')
        /\ oerr = (fun e => Wrap e "could not start container") <$> serr
  end.
Proof.
  unfold RunContainer_body. run. intros H.
  destruct (create w) as [[[c|e] w1]| |]; simplify_eq/=; [|eauto].
  destruct (Start c w1) as [[[serr c0] w0]| |] eqn:Hs; simplify_eq/=.
  destruct serr; simplify_eq/=; eauto 10.
Qed.

Lemma RunContainer_outcomes_witness :
  exists c w1 serr,
    CreateContainer_body scenario.plainPorts scenario.serial scenario.sidecarUp
      scenario.startFails scenario.alpine [("A", "1"); ("B", "2")] ["8080/tcp"]
      scenario.boot = Returns (Ok c, w1)
    /\ Start c w1
       = Returns ((serr, scenario.startedHandle scenario.startAttempt),
                  scenario.worldOf scenario.startAttempt)
    /\ Some (Wrap (ClientError false "driver failed") "could not start container")
       = (fun e => Wrap e "could not start container") <$> serr.
Proof.
  apply (RunContainer_outcomes
           (CreateContainer_body scenario.plainPorts scenario.serial scenario.sidecarUp
              scenario.startFails scenario.alpine [("A", "1"); ("B", "2")] ["8080/tcp"])
           scenario.boot (Some (scenario.startedHandle scenario.startAttempt))).
  vm_compute. reflexivity.
Defined.

(** X15: [NewReaper] panics in two cases only: its provider panicked, or
    its provider returned a nil handle with a nil error, which
    [NewReaper] then dereferences.  Resolving the endpoint never
    panics. *)
Theorem NewReaper_panics_only_on_nil_handle P sid provider po w msg :
  NewReaper P sid provider po w = Panics msg ->
  let request :=
    reaperRequest {| Provider := provider; SessionID := sid; Endpoint := "" |} in
  iface.RunContainer provider request w = Panics msg
  \/ exists w1, iface.RunContainer provider request w = Returns ((None, None), w1).
Proof.
  unfold NewReaper. run. intros H.
  destruct (iface.RunContainer provider _ w) as [[[[c|] [e|]] w1]| |] eqn:Hrun;
    simplify_eq/=; [|by eauto..].
  destruct (GetHostEndpoint_returns P c "8080" po w1) as ([[ep err] c'] & w' & Hep).
  rewrite Hep in H. by destruct err.
Qed.

Lemma NewReaper_panics_only_on_nil_handle_witness :
  exists w1,
    iface.RunContainer scenario.nilProvider
      (reaperRequest {| Provider := scenario.nilProvider; SessionID := "s"; Endpoint := "" |})
      scenario.boot
    = Returns ((None, None), w1).
Proof.
  destruct (NewReaper_panics_only_on_nil_handle scenario.plainPorts "s" scenario.nilProvider
              ["8080/tcp"] scenario.boot
              "invalid memory address or nil pointer dereference" eq_refl) as [H|H].
  - vm_compute in H. discriminate H.
  - exact H.
Defined.

(** ** Building the reaper *)

(** X16: [NewReaper] passes an error of its provider on unchanged and
    does nothing more, even when a handle came with the error (a sidecar
    that was created but did not start is left as it is).  After its
    provider returned, [NewReaper] asks the daemon for nothing but, at
    most, one inspect: it never removes a container. *)
Theorem NewReaper_leaves_the_sidecar P sid provider po w x w' :
  NewReaper P sid provider po w = Returns (x, w') ->
  let request :=
    reaperRequest {| Provider := provider; SessionID := sid; Endpoint := "" |} in
  exists oc oerr w1,
    iface.RunContainer provider request w = Returns ((oc, oerr), w1)
    /\ keeps w1 w'
    /\ inspects (calls w') <= S (inspects (calls w1))
    /\ match oerr with
       | Some e => x = Err e /\ w' = w1
       | None => True
       end.
Proof.
  unfold NewReaper. run. intros H.
  destruct (iface.RunContainer provider _ w) as [[[oc oerr] w1]| |] eqn:Hrun; [|done..].
  exists oc, oerr, w1. split; [done|].
  destruct oerr as [e|]; simplify_eq/=.
  { split_and!; [apply keeps_refl|lia|done..]. }
  destruct oc as [c|]; [|done].
  destruct (GetHostEndpoint P c "8080" po w1) as [[[[ep err] c'] w2]| |] eqn:Hep; [|done..].
  assert (w2 = w') as -> by (destruct err; by simplify_eq/=).
  pose proof (GetHostEndpoint_leaves _ _ _ _ _ _ _ _ _ Hep) as [_ Hkeeps].
  split_and!; [done| |done].
  clear H. unfold GetHostEndpoint, inspectContainer in Hep. run.
  destruct (raw c); cases; unfold inspects; simpl; lia.
Qed.

Lemma NewReaper_leaves_the_sidecar_witness :
  exists oc oerr w1,
    iface.RunContainer scenario.sidecarStuck
      (reaperRequest {| Provider := scenario.sidecarStuck; SessionID := "s"; Endpoint := "" |})
      scenario.boot = Returns ((oc, oerr), w1)
    /\ keeps w1 scenario.boot
    /\ inspects (calls scenario.boot) <= S (inspects (calls w1))
    /\ match oerr with
       | Some e =>
           Err (Wrap (ClientError false "driver failed") "could not start container")
           = Err (A := Reaper) e /\ scenario.boot = w1
       | None => True
       end.
Proof.
  apply (NewReaper_leaves_the_sidecar scenario.plainPorts "s" scenario.sidecarStuck
           ["8080/tcp"] scenario.boot).
  vm_compute. reflexivity.
Defined.

(** ** Creating a container *)




(** X18: [CreateContainer] and [RunContainer] as the source has them,
    with the provider itself handed to [NewReaper].  When
    [ParsePortSpecs] rejects the ports of the request, both return that
    error at once: no identifier is drawn and the daemon is not asked
    anything.  When it accepts them, neither returns: at any depth the
    call has drawn one identifier per level and still has not asked the
    daemon anything. *)
Theorem CreateContainer_returns_only_on_bad_ports P rand fuel p req eo po w x :
  P [] = Ok x ->
  match P (req.ExportedPort req) with
  | Err e =>
      CreateContainer P rand (S fuel) p req eo po w = Returns (Err e, w)
      /\ RunContainer P rand (S fuel) p req eo po w = Returns ((None, Some e), w)
  | Ok _ =>
      exists w',
        CreateContainer P rand (S fuel) p req eo po w = OutOfFuel w'
        /\ RunContainer P rand (S fuel) p req eo po w = OutOfFuel w'
        /\ rand_pos w' = rand_pos w + S fuel
        /\ calls w' = calls w
  end.
Proof.
  intros HP.
  destruct (CreateContainer_recursion P rand (S fuel) p req eo po w x HP)
    as [(w' & Hout & Hpos & Hcalls)|(e & He & Hret)].
  - destruct (P (req.ExportedPort req)) as [y|e] eqn:Hreq.
    + exists w'. unfold RunContainer, RunContainer_body. run. by rewrite Hout.
    + simpl in Hout. unfold CreateContainer_body in Hout. by rewrite Hreq in Hout.
  - rewrite He. unfold RunContainer, RunContainer_body. run. by rewrite Hret.
Qed.

Lemma CreateContainer_returns_only_on_bad_ports_witness :
  CreateContainer scenario.pickyPorts scenario.serial 5 scenario.healthy scenario.noPort
    [] ["8080/tcp"] scenario.boot
  = Returns (Err (Errorf "No port specified: <empty>"), scenario.boot)
  /\ RunContainer scenario.pickyPorts scenario.serial 5 scenario.healthy scenario.noPort
       [] ["8080/tcp"] scenario.boot
     = Returns ((None, Some (Errorf "No port specified: <empty>")), scenario.boot).
Proof.
  exact (CreateContainer_returns_only_on_bad_ports scenario.pickyPorts scenario.serial 4
           scenario.healthy scenario.noPort [] ["8080/tcp"] scenario.boot (∅, ∅) eq_refl).
Defined.





(** X21: a writer that has failed stays failed.  From the moment a
    flush has failed, the remaining attempts of the handshake hand the
    filter to the writer and flush, but nothing reaches the sidecar and
    nothing is read: the watcher uses up its attempts on the spot. *)
Theorem handshake_after_failed_flush (filters : list string) (retryLimit : nat)
    (sock0 : bufio.Conn) (e : Error) :
  bufio.werr sock0 = Some e ->
  let result := handshake filters retryLimit sock0 in
  result.1 = false
  /\ bufio.wire result.2 = bufio.wire sock0
  /\ bufio.inbound result.2 = bufio.inbound sock0
  /\ reads result.2 = reads sock0
  /\ attempts result.2 = attempts sock0 + retryLimit
  /\ bufio.werr result.2 = Some e.
Proof.
  revert sock0. induction retryLimit as [|n IH]; intros sock0 Herr.
  { simpl. split_and!; try done; lia. }
  rewrite handshake_unfold. cbv zeta.
  unfold bufio.Flush, bufio.WriteString. simpl. rewrite Herr.
  match goal with |- context [handshake filters n ?s] =>
    destruct (IH s) as (H1 & H2 & H3 & H4 & H5 & H6); [by simpl|] end.
  simpl in *. split_and!; try done.
  rewrite H5. unfold attempts. simpl. lia.
Qed.

Lemma handshake_after_failed_flush_witness :
  let broken :=
    (bufio.Flush (bufio.WriteString scenario.filterS
                    (bufio.dialled scenario.ackLine [false]))).2 in
  let result := handshake (labelFilters scenario.labelOrder) 2 broken in
  result.1 = false
  /\ bufio.wire result.2 = ""
  /\ bufio.inbound result.2 = scenario.ackLine
  /\ reads result.2 = 0
  /\ attempts result.2 = 3.
Proof.
  intros broken result.
  destruct (handshake_after_failed_flush (labelFilters scenario.labelOrder) 2 broken
              (IOError "write failed") eq_refl) as (H1 & H2 & H3 & H4 & H5 & _).
  split_and!; [exact H1|exact H2|exact H3|exact H4|exact H5].
Defined.
